(** * The token store of the code-completion parser: persistence codec,
      token kinds and the inheritance walk

    An embedding of [src/plugins/codecompletion/parser/token.h]: the
    integer and string codec ([SaveIntToFile], [LoadIntFromFile],
    [SaveStringToFile], [LoadStringFromFile]), the [TokenKind] flags, the two
    identity-to-record accessors of [TokensTree], and the inheritance closure
    walk of [TokensTree] (declared in the header, defined in token.cpp). *)

From Stdlib Require Import ZArith List Lia Bool.
From Stdlib Require Import Strings.Byte.
From stdpp Require Import base gmap sets list sorting.
Import ListNotations.
Open Scope Z_scope.

#[local] Set Warnings "-clear-no-such-hyp".

(** ** Machine integers *)

Module Int.

(** [unsigned int] and [int] are 32 bits wide on every compiler the code is
    built with; a conversion to either keeps the low 32 bits. *)
Definition bits : Z := 32.
Definition to_unsigned (w x : Z) : Z := x mod 2 ^ w.
Definition to_signed (w x : Z) : Z := (x + 2 ^ (w - 1)) mod 2 ^ w - 2 ^ (w - 1).

Definition to_uint (x : Z) : Z := to_unsigned bits x.
Definition to_int (x : Z) : Z := to_signed bits x.

Definition min_int : Z := - 2 ^ 31.
Definition max_int : Z := 2 ^ 31 - 1.
Definition is_int (x : Z) : Prop := min_int <= x <= max_int.

End Int.

(** ** Octets *)

Definition byte : Type := Byte.byte.

Definition Z_of_byte (b : byte) : Z := Z.of_N (Byte.to_N b).

Definition byte_of_Z (z : Z) : byte :=
  match Byte.of_N (Z.to_N (z mod 256)) with
  | Some b => b
  | None => Byte.x00
  end.

(** The [n] low octets of [u], least significant first. *)
Fixpoint octets (n : nat) (u : Z) : list byte :=
  match n with
  | O => []
  | S n' => byte_of_Z u :: octets n' (Z.shiftr u 8)
  end.

(** The unsigned number a run of octets stands for, least significant first. *)
Fixpoint octets_value (l : list byte) : Z :=
  match l with
  | [] => 0
  | b :: l' => Z.lor (Z_of_byte b) (Z.shiftl (octets_value l') 8)
  end.

(** ** The build: what [wxChar] is

    [wxChar] is declared by wxWidgets, not by this repository, and the codec
    uses it for its byte buffers ([wxChar c[4]], [wxChar buf[32768]]).  It is
    [char] in an ANSI build of wxWidgets and [wchar_t] in a Unicode build, so
    its size, its signedness and (when it is wider than an octet) the byte
    order of the host are parameters of the embedding.  [indeterminate k] is
    the octet found at offset [k] of an automatic array that was never
    written: a buffer of wide characters is only partly filled by a read that
    counts octets.  [wxChar_size] is [sizeof(wxChar)]. *)
Record Build : Type := {
  wxChar_size : positive;
  wxChar_signed : bool;
  big_endian : bool;
  indeterminate : nat -> byte
}.

(** x86, ANSI wxWidgets: [wxChar] is [char], which is signed. *)
Definition ansi_x86 : Build :=
  {| wxChar_size := 1; wxChar_signed := true; big_endian := false;
     indeterminate := fun _ => Byte.x00 |}.

(** ARM or PowerPC Linux, ANSI wxWidgets: [char] is unsigned. *)
Definition ansi_arm : Build :=
  {| wxChar_size := 1; wxChar_signed := false; big_endian := false;
     indeterminate := fun _ => Byte.x00 |}.

(** x86 Linux, Unicode wxWidgets: [wchar_t] is a signed 32-bit integer. *)
Definition unicode_linux : Build :=
  {| wxChar_size := 4; wxChar_signed := true; big_endian := false;
     indeterminate := fun _ => Byte.x00 |}.

(** Windows, Unicode wxWidgets: [wchar_t] is an unsigned 16-bit integer. *)
Definition unicode_windows : Build :=
  {| wxChar_size := 2; wxChar_signed := false; big_endian := false;
     indeterminate := fun _ => Byte.x00 |}.

(** A big-endian host, Unicode wxWidgets: [wchar_t] is a signed 32-bit
    integer stored most significant octet first. *)
Definition unicode_big_endian : Build :=
  {| wxChar_size := 4; wxChar_signed := true; big_endian := true;
     indeterminate := fun _ => Byte.x00 |}.

(** The build the spec has in mind: a buffer of [wxChar] is a buffer of
    unsigned octets. *)
Definition octet_build (B : Build) : Prop :=
  wxChar_size B = 1%positive /\ wxChar_signed B = false.

Section WxChar.
Variable B : Build.

Definition char_size : nat := Pos.to_nat (wxChar_size B).
Definition wxChar_bits : Z := 8 * Z.pos (wxChar_size B).

(** The conversion [(wxChar) x]. *)
Definition to_wxChar (x : Z) : Z :=
  if wxChar_signed B then Int.to_signed wxChar_bits x
  else Int.to_unsigned wxChar_bits x.

Definition host_order (l : list byte) : list byte :=
  if big_endian B then rev l else l.

(** The octets one [wxChar] occupies in memory, and the [wxChar] a run of
    [char_size] octets holds. *)
Definition wxChar_store (v : Z) : list byte :=
  host_order (octets char_size v).

Definition wxChar_load (l : list byte) : Z :=
  let u := octets_value (host_order l) in
  if wxChar_signed B then Int.to_signed wxChar_bits u else u.

(** The memory image of an array of [wxChar], and element [k] of the array
    a memory image holds. *)
Definition array_store (c : list Z) : list byte :=
  concat (map wxChar_store c).

Definition array_load (mem : list byte) (k : nat) : Z :=
  wxChar_load (take char_size (drop (k * char_size) mem)).

(** The image of an automatic array of [n] elements whose first octets were
    filled with [got]; the rest was never written. *)
Definition automatic (n : nat) (got : list byte) : list byte :=
  got ++ map (indeterminate B) (seq (length got) (n * char_size - length got)).
End WxChar.

(** ** Streams

    [wxOutputStream] and [wxInputStream] are wxWidgets classes.  An output
    stream is the octets written so far; an input stream is its content and
    the read position. *)
Definition wxOutputStream : Type := list byte.

(** [f->Write(buffer, n)]: the first [n] octets of the buffer's image. *)
Definition Write (f : wxOutputStream) (buffer : list byte) (n : Z) : wxOutputStream :=
  f ++ take (Z.to_nat n) buffer.

Record wxInputStream : Type := {
  stream_data : list byte;
  stream_pos : Z
}.

(** [f->Read(buffer, n)]: the octets obtained (fewer than [n] at the end of
    the stream; their number is [LastRead()]) and the stream after them. *)
Definition Read (f : wxInputStream) (n : Z) : list byte * wxInputStream :=
  let got := take (Z.to_nat n) (drop (Z.to_nat (stream_pos f)) (stream_data f)) in
  (got, {| stream_data := stream_data f;
           stream_pos := stream_pos f + Z.of_nat (length got) |}).

(** [f->SeekI(n, wxFromCurrent)]. *)
Definition SeekI (f : wxInputStream) (n : Z) : wxInputStream :=
  {| stream_data := stream_data f; stream_pos := stream_pos f + n |}.

Definition input_of (l : list byte) : wxInputStream :=
  {| stream_data := l; stream_pos := 0 |}.

(** The octets not yet read. *)
Definition remaining (f : wxInputStream) : list byte :=
  drop (Z.to_nat (stream_pos f)) (stream_data f).

(** ** The integer codec *)

Section IntCodec.
Variable B : Build.

(** [SaveIntToFile(f, i)].  The four characters are converted one by one;
    [Write(c, 4)] then emits the first four octets of the array. *)
Definition SaveIntToFile (f : wxOutputStream) (i : Z) : wxOutputStream :=
  let j := Int.to_uint i in
  let c := [ to_wxChar B (Z.land (Z.shiftr j 0) 255);
             to_wxChar B (Z.land (Z.shiftr j 8) 255);
             to_wxChar B (Z.land (Z.shiftr j 16) 255);
             to_wxChar B (Z.land (Z.shiftr j 24) 255) ] in
  Write f (array_store B c) 4.

(** [LoadIntFromFile(f, &i)]: the flag returned, the integer [*i] holds
    afterwards ([i] is what it held before) and the stream.  The characters
    are promoted to [int] before they are shifted, so a negative character
    is sign-extended; the result is what 32-bit two's complement arithmetic
    leaves in [*i]. *)
Definition LoadIntFromFile (f : wxInputStream) (i : Z) : bool * Z * wxInputStream :=
  let '(got, f') := Read f 4 in
  if negb (length got =? 4)%nat then (false, i, f')
  else
    let c := array_load B (automatic B 4 got) in
    (true,
     Int.to_int (Z.lor (Z.lor (Z.lor (Z.shiftl (c 0%nat) 0) (Z.shiftl (c 1%nat) 8))
                              (Z.shiftl (c 2%nat) 16))
                       (Z.shiftl (c 3%nat) 24)),
     f').
End IntCodec.

(** ** The string codec *)

(** [strlen(psz)]: the octets before the first zero one. *)
Definition is_nul (b : byte) : bool :=
  match b with Byte.x00 => true | _ => false end.

Fixpoint strlen (psz : list byte) : nat :=
  match psz with
  | [] => O
  | b :: rest => if is_nul b then O else S (strlen rest)
  end.

(** The characters of a zero-terminated array of [wxChar] before its
    terminator. *)
Fixpoint c_str (buf : list Z) : list Z :=
  match buf with
  | [] => []
  | c :: rest => if c =? 0 then [] else c :: c_str rest
  end.

(** [wxChar buf[32768]]. *)
Definition buf_size : Z := 32768.

Section StringCodec.
Variable B : Build.

(** [wxString] is the string class of wxWidgets.  [mb_str s] is the buffer
    [s.mb_str(wxConvUTF8)] yields, up to its terminator, or [None] when the
    conversion gives a null pointer; [wxString_of chars] is the string
    [wxString(buf, wxConvUTF8)] builds from the characters of [buf]. *)
Variable wxString : Type.
Variable mb_str : wxString -> option (list byte).
Variable wxString_of : list Z -> wxString.

(** [str.Empty()] leaves the string of no characters. *)
Definition Empty : wxString := wxString_of [].

(** [SaveStringToFile(f, str)].  [size] is an [int], so the length
    [strlen] returns is converted.  (Should that make [size] negative, for
    a string of 2^31 octets or more, the count handed to [Write] is out of
    range and nothing more is written here.) *)
Definition SaveStringToFile (f : wxOutputStream) (str : wxString) : wxOutputStream :=
  let psz := mb_str str in
  let size := match psz with
              | Some p => Int.to_int (Z.of_nat (strlen p))
              | None => 0
              end in
  let size := if 32767 <=? size then 32767 else size in
  let f := SaveIntToFile B f size in
  if size =? 0 then f
  else Write f (match psz with Some p => p | None => [] end) size.

(** The first branch of [LoadStringFromFile] at a given [size]: [size]
    octets are read into [buf], [buf[size]] is set to zero and the string
    is built from [buf].  [None] stands for an access outside [buf]: a read
    of more octets than the array has, or a terminator written at an index
    that is not below [buf_size]. *)
Definition read_into_buf (f : wxInputStream) (size : Z)
  : option (bool * wxString * wxInputStream) :=
  let '(got, f') := Read f size in
  let ok := (length got =? Z.to_nat size)%nat in
  if (0 <=? size) && (size <=? buf_size * Z.of_nat (char_size B))
     && (size <? buf_size)
  then
    let mem := automatic B (Z.to_nat buf_size) got in
    let buf := map (array_load B mem) (seq 0 (Z.to_nat size)) in
    Some (ok, wxString_of (c_str buf), f')
  else None.

(** The second branch: the string is emptied and the stream skipped. *)
Definition skip_string (f : wxInputStream) (size : Z)
  : option (bool * wxString * wxInputStream) :=
  let size := Z.land size 16777215 in
  Some (true, Empty, SeekI f size).

(** [LoadStringFromFile(f, str)]: the flag returned, the string [str] holds
    afterwards and the stream. *)
Definition LoadStringFromFile (f : wxInputStream) (str : wxString)
  : option (bool * wxString * wxInputStream) :=
  let '(loaded, size, f) := LoadIntFromFile B f 0 in
  if negb loaded then Some (false, str, f)
  else if (0 <? size) && (size <=? 32767) then read_into_buf f size
  else skip_string f size.
End StringCodec.

(** Strings of octets, for running the codec: the encoding of a string is the
    string itself and a character is the octet read unsigned. *)
Definition octet_string : Type := list byte.
Definition octet_mb_str (s : octet_string) : option (list byte) := Some s.
Definition octet_string_of (chars : list Z) : octet_string := map byte_of_Z chars.

Definition save_octets (B : Build) := SaveStringToFile B octet_string octet_mb_str.
Definition load_octets (B : Build) := LoadStringFromFile B octet_string octet_string_of.


(** A name of 128 letters, and one of 40000. *)
Definition name_128 : octet_string := repeat Byte.x61 128.
Definition name_40000 : octet_string := repeat Byte.x61 (Z.to_nat 40000).

(** A string of 300 letters, such as the argument list of a function. *)
Definition name_300 : octet_string := repeat Byte.x61 300.

(** ** Token kinds *)

(** [enum TokenKind]: bit flags and the masks built from them. *)
Definition tkNamespace : Z := 0x0001.
Definition tkClass : Z := 0x0002.
Definition tkEnum : Z := 0x0004.
Definition tkTypedef : Z := 0x0008.
Definition tkConstructor : Z := 0x0010.
Definition tkDestructor : Z := 0x0020.
Definition tkFunction : Z := 0x0040.
Definition tkVariable : Z := 0x0080.
Definition tkEnumerator : Z := 0x0100.
Definition tkPreprocessor : Z := 0x0200.
Definition tkMacro : Z := 0x0400.

Definition tkAnyContainer : Z := Z.lor (Z.lor tkClass tkNamespace) tkTypedef.
Definition tkAnyFunction : Z := Z.lor (Z.lor tkFunction tkConstructor) tkDestructor.

Definition tkUndefined : Z := 0xFFFF.

(** The eleven kinds, in the order of the enumeration. *)
Definition token_kinds : list Z :=
  [ tkNamespace; tkClass; tkEnum; tkTypedef; tkConstructor; tkDestructor;
    tkFunction; tkVariable; tkEnumerator; tkPreprocessor; tkMacro ].

(** ** Tokens and the tree *)

(** [TokenIdxSet] is [std::set<int>]. *)
Abbreviation TokenIdxSet := (gset Z).

(** [class Token]: the fields the accessors and the inheritance walk use. *)
Record Token : Type := {
  m_Name : list byte;
  m_TokenKind : Z;
  m_ParentIndex : Z;
  m_Children : TokenIdxSet;
  m_Ancestors : TokenIdxSet;
  m_DirectAncestors : TokenIdxSet;
  m_Descendants : TokenIdxSet;
  m_Self : Z;
  m_Ticket : Z
}.

(** [class TokensTree]: [m_Tokens] holds a null pointer at a freed slot. *)
Record TokensTree : Type := {
  m_Tokens : list (option Token);
  m_FreeTokens : list Z
}.

(** [Token*]: [None] is the null pointer. *)
Abbreviation TokenPtr := (option Token).

Section Accessors.
(** [GetTokenAt] is a protected member declared in the header; its body is
    in token.cpp. *)
Variable GetTokenAt : TokensTree -> Z -> TokenPtr.

(** [inline Token* operator[](int idx) { return GetTokenAt(idx); }] *)
Definition operator_subscript (t : TokensTree) (idx : Z) : TokenPtr :=
  GetTokenAt t idx.

(** [inline Token* at(int idx) { return GetTokenAt(idx); }] *)
Definition at_ (t : TokensTree) (idx : Z) : TokenPtr :=
  GetTokenAt t idx.
End Accessors.

(** Modelled from the spec: the body of [TokensTree::GetTokenAt], which is in
    token.cpp.  The lookup "fails by returning a null reference sentinel if
    identity is out of range or the slot is free". *)
Definition GetTokenAt (t : TokensTree) (idx : Z) : TokenPtr :=
  if (idx <? 0) || (Z.of_nat (length (m_Tokens t)) <=? idx) then None
  else match m_Tokens t !! Z.to_nat idx with
       | Some p => p
       | None => None
       end.

(** ** The inheritance walk *)

(** Modelled from the spec: [TokensTree::RecalcFullInheritance(parentIdx,
    result)], whose body is in token.cpp.  The closure walk over resolved
    direct ancestors: an identity already in [result] "is skipped rather than
    re-descended", a new one is added and its own ancestors are walked; an
    identity that does not resolve to a live record has none.  The recursion
    depth is counted down in [fuel]; [None] means the walk did not finish
    within it. *)
Fixpoint RecalcFullInheritance (fuel : nat) (t : TokensTree) (parentIdx : Z)
    (result : TokenIdxSet) : option TokenIdxSet :=
  match fuel with
  | O => None
  | S fuel' =>
      match at_ GetTokenAt t parentIdx with
      | None => Some result
      | Some ancestor =>
          set_fold
            (fun (a : Z) (acc : option TokenIdxSet) =>
               match acc with
               | None => None
               | Some result =>
                   if decide (a ∈ result) then Some result
                   else RecalcFullInheritance fuel' t a ({[ a ]} ∪ result)
               end)
            (Some result) (m_DirectAncestors ancestor)
      end
  end.

Definition set_Ancestors (tok : Token) (s : TokenIdxSet) : Token :=
  {| m_Name := m_Name tok; m_TokenKind := m_TokenKind tok;
     m_ParentIndex := m_ParentIndex tok; m_Children := m_Children tok;
     m_Ancestors := s; m_DirectAncestors := m_DirectAncestors tok;
     m_Descendants := m_Descendants tok; m_Self := m_Self tok;
     m_Ticket := m_Ticket tok |}.

Definition add_Descendant (d : Z) (tok : Token) : Token :=
  {| m_Name := m_Name tok; m_TokenKind := m_TokenKind tok;
     m_ParentIndex := m_ParentIndex tok; m_Children := m_Children tok;
     m_Ancestors := m_Ancestors tok; m_DirectAncestors := m_DirectAncestors tok;
     m_Descendants := {[ d ]} ∪ m_Descendants tok; m_Self := m_Self tok;
     m_Ticket := m_Ticket tok |}.

(** The record at slot [idx] replaced by its image under [g]; a freed or
    missing slot is left alone. *)
Definition update_token (g : Token -> Token) (idx : Z) (t : TokensTree) : TokensTree :=
  match at_ GetTokenAt t idx with
  | None => t
  | Some tok =>
      {| m_Tokens := <[ Z.to_nat idx := Some (g tok) ]> (m_Tokens t);
         m_FreeTokens := m_FreeTokens t |}
  end.

(** Modelled from the spec: [TokensTree::RecalcInheritanceChain(token)],
    whose body is in token.cpp, for the token at slot [idx].  It "computes
    the full transitive ancestors set via closure over already-resolved
    ancestors" and "updates each ancestor's descendants set with this
    record's identity".  The token itself is kept out of its own ancestors
    ("ancestors never contain self"). *)
Definition RecalcInheritanceChain (fuel : nat) (t : TokensTree) (idx : Z)
  : option TokensTree :=
  match at_ GetTokenAt t idx with
  | None => Some t
  | Some token =>
      match RecalcFullInheritance fuel t idx ∅ with
      | None => None
      | Some result =>
          let ancestors := result ∖ {[ idx ]} in
          let t := update_token (fun tok => set_Ancestors tok ancestors) idx t in
          Some (set_fold (update_token (add_Descendant idx)) t ancestors)
      end
  end.

(** The identities within the range of the arena. *)
Definition slots (t : TokensTree) : TokenIdxSet :=
  list_to_set (seqZ 0 (Z.of_nat (length (m_Tokens t)))).

(** Fuel that is enough for any tree. *)
Definition enough_fuel (t : TokensTree) : nat := length (m_Tokens t) + 2.

Definition class_token (self : Z) (direct : TokenIdxSet) : Token :=
  {| m_Name := []; m_TokenKind := tkClass; m_ParentIndex := -1;
     m_Children := ∅; m_Ancestors := ∅; m_DirectAncestors := direct;
     m_Descendants := ∅; m_Self := self; m_Ticket := 0 |}.

Definition tree_of (l : list TokenPtr) : TokensTree :=
  {| m_Tokens := l; m_FreeTokens := [] |}.

(** [A] (slot 0) derives from [B] (slot 1), which derives from [C] (slot 2). *)
Definition chain_tree : TokensTree :=
  tree_of [ Some (class_token 0 {[ 1 ]}); Some (class_token 1 {[ 2 ]});
            Some (class_token 2 ∅) ].

(** [A] derives from [B] and [B] from [A]; slot 2 is free; the class at slot
    3 names itself, the free slot and an identity outside the arena. *)
Definition cyclic_tree : TokensTree :=
  tree_of [ Some (class_token 0 {[ 1 ]}); Some (class_token 1 {[ 0 ]}); None;
            Some (class_token 3 ({[ 3 ]} ∪ {[ 7 ]} ∪ {[ 2 ]})) ].

(** The ancestors and descendants slot [idx] holds after a walk. *)
Definition Ancestors_at (o : option TokensTree) (idx : Z) : option (list Z) :=
  match o with
  | None => None
  | Some t => option_map (fun tok => elements (m_Ancestors tok)) (at_ GetTokenAt t idx)
  end.

Definition Descendants_at (o : option TokensTree) (idx : Z) : option (list Z) :=
  match o with
  | None => None
  | Some t => option_map (fun tok => elements (m_Descendants tok)) (at_ GetTokenAt t idx)
  end.


(** ** Kind masks as parameters

    [TokenExists], [FindMatches] and [FindTokensInFile] take their mask as a
    [short int kindMask]; [FindMatches] defaults it to [tkUndefined]. *)
Definition to_short (x : Z) : Z := Int.to_signed 16 x.

Definition FindMatches_kindMask_default : Z := to_short tkUndefined.

(** The union of a list of kinds, as a call site writes it with [|]. *)
Definition kinds_union (ks : list Z) : Z := fold_right Z.lor 0 ks.

(** ** The profiling harness *)

Section ProfileTimer.
(** [wxStopWatch] is a wxWidgets class; the harness calls [Start], [Pause],
    [Resume] and [Time] on it and nothing else.  [size_bits] is the width of
    [size_t], the type of the two counters. *)
Variable wxStopWatch : Type.
Variable Start Pause Resume : wxStopWatch -> wxStopWatch.
Variable Time : wxStopWatch -> Z.
Variable size_bits : Z.

Definition to_size_t (x : Z) : Z := x mod 2 ^ size_bits.

(** [class ProfileTimerData]. *)
Record ProfileTimerData : Type := {
  m_StopWatch : wxStopWatch;
  m_CallTimes : Z;
  m_Count : Z
}.

(** [ProfileTimerData()]; [sw] is the stop watch as its own constructor
    leaves it. *)
Definition ProfileTimerData_new (sw : wxStopWatch) : ProfileTimerData :=
  {| m_StopWatch := Pause sw; m_CallTimes := 0; m_Count := 0 |}.

(** [ProfileTimerData::Zero()]. *)
Definition Zero (d : ProfileTimerData) : ProfileTimerData :=
  {| m_StopWatch := Pause (Start (m_StopWatch d)); m_CallTimes := 0; m_Count := 0 |}.

(** [ProfileTimerHelper(profileTimerData)]:
    [if (m_Count++ == 0) m_StopWatch.Resume();] *)
Definition ProfileTimerHelper_enter (d : ProfileTimerData) : ProfileTimerData :=
  {| m_StopWatch := if m_Count d =? 0 then Resume (m_StopWatch d) else m_StopWatch d;
     m_CallTimes := m_CallTimes d;
     m_Count := to_size_t (m_Count d + 1) |}.

(** [~ProfileTimerHelper()]: [if (--m_Count == 0) m_StopWatch.Pause();] *)
Definition ProfileTimerHelper_leave (d : ProfileTimerData) : ProfileTimerData :=
  let count := to_size_t (m_Count d - 1) in
  {| m_StopWatch := if count =? 0 then Pause (m_StopWatch d) else m_StopWatch d;
     m_CallTimes := m_CallTimes d;
     m_Count := count |}.

(** [CC_PROFILE_TIMER()] as it expands when [CC_PARSER_PROFILE_TEST] is set,
    on the function's own timer: [__ptd.m_CallTimes += __i], where [__i] is
    the 1 that [Registry] returned, then the helper is constructed. *)
Definition CC_PROFILE_TIMER (d : ProfileTimerData) : ProfileTimerData :=
  ProfileTimerHelper_enter
    {| m_StopWatch := m_StopWatch d;
       m_CallTimes := to_size_t (m_CallTimes d + 1);
       m_Count := m_Count d |}.

(** What a profiled function goes through: one activation after the other,
    each with the activations nested in it (the function calling itself,
    directly or not) between its helper's construction and destruction. *)
Inductive activations : Type :=
| Idle
| Active (inner next : activations).

Fixpoint run (w : activations) (d : ProfileTimerData) : ProfileTimerData :=
  match w with
  | Idle => d
  | Active inner next =>
      run next (ProfileTimerHelper_leave (run inner (CC_PROFILE_TIMER d)))
  end.

Fixpoint depth (w : activations) : nat :=
  match w with
  | Idle => O
  | Active inner next => Nat.max (S (depth inner)) (depth next)
  end.

Fixpoint calls (w : activations) : nat :=
  match w with
  | Idle => O
  | Active inner next => S (calls inner + calls next)
  end.

Fixpoint outermost (w : activations) : nat :=
  match w with
  | Idle => O
  | Active inner next => S (outermost next)
  end.

(** [n] activations one after the other, none nested. *)
Fixpoint flat (n : nat) : activations :=
  match n with
  | O => Idle
  | S n' => Active Idle (flat n')
  end.

(** The three numbers [ProfileTimer::Log] prints for a time in
    milliseconds: [totalTime / 60000], [(totalTime / 1000) % 60] and
    [totalTime % 1000], on a [long]. *)
Definition Log_times (totalTime : Z) : Z * Z * Z :=
  (Z.quot totalTime 60000, Z.rem (Z.quot totalTime 1000) 60, Z.rem totalTime 1000).
End ProfileTimer.

Section ProfileLog.
(** [funcName] is the [wxString] a timer is registered under.  A
    [ProfileTimerData*] is the address of a timer; [timers] holds the timer
    at each address. *)
Variable wxStopWatch : Type.
Variable Start Pause : wxStopWatch -> wxStopWatch.
Variable Time : wxStopWatch -> Z.
Variable funcName : Type.

(** What [Log] formats into one line: the name, the three numbers of the
    time and the call counter. *)
Record log_line : Type := {
  line_name : funcName;
  line_minutes : Z;
  line_seconds : Z;
  line_millis : Z;
  line_calls : Z
}.

(** The body of the loop of [Log] for one entry of the map: the line that
    goes to the debug log and the timer after [Zero]. *)
Definition Log_entry (name : funcName) (d : ProfileTimerData wxStopWatch)
  : log_line * ProfileTimerData wxStopWatch :=
  let totalTime := Time (m_StopWatch _ d) in
  ({| line_name := name;
      line_minutes := fst (fst (Log_times totalTime));
      line_seconds := snd (fst (Log_times totalTime));
      line_millis := snd (Log_times totalTime);
      line_calls := m_CallTimes _ d |},
   Zero wxStopWatch Start Pause d).

(** [ProfileTimer::Registry(ptd, funcName)]: the map after
    [m_ProfileMap[ptd] = funcName] and the 1 returned. *)
Definition Registry (m_ProfileMap : gmap Z funcName) (ptd : Z) (name : funcName)
  : gmap Z funcName * Z :=
  (<[ ptd := name ]> m_ProfileMap, 1).

(** The entries of [m_ProfileMap] in the order the loop meets them: a
    [std::map] is walked by increasing key. *)
Definition by_address (p q : Z * funcName) : Prop := p.1 <= q.1.

#[local] Instance by_address_dec (p q : Z * funcName) : Decision (by_address p q) :=
  decide (p.1 <= q.1).

Definition entries (m_ProfileMap : gmap Z funcName) : list (Z * funcName) :=
  merge_sort by_address (map_to_list m_ProfileMap).

(** The loop of [Log] over the entries left; [None] when an entry points to
    no timer. *)
Fixpoint Log_loop (es : list (Z * funcName))
    (timers : gmap Z (ProfileTimerData wxStopWatch))
  : option (list log_line * gmap Z (ProfileTimerData wxStopWatch)) :=
  match es with
  | [] => Some ([], timers)
  | (ptd, name) :: rest =>
      match timers !! ptd with
      | None => None
      | Some d =>
          match Log_loop rest (<[ ptd := snd (Log_entry name d) ]> timers) with
          | None => None
          | Some (lines, timers') => Some (fst (Log_entry name d) :: lines, timers')
          end
      end
  end.

(** [ProfileTimer::Log()]: the lines handed to the debug log and the timers
    afterwards. *)
Definition Log (m_ProfileMap : gmap Z funcName)
    (timers : gmap Z (ProfileTimerData wxStopWatch))
  : option (list log_line * gmap Z (ProfileTimerData wxStopWatch)) :=
  Log_loop (entries m_ProfileMap) timers.
End ProfileLog.

(** A stop watch that records the calls made on it, latest first. *)
Inductive stop_watch_call : Type := CallStart | CallPause | CallResume.
Definition recorded : Type := list stop_watch_call.
Definition record_Start (sw : recorded) : recorded := CallStart :: sw.
Definition record_Pause (sw : recorded) : recorded := CallPause :: sw.
Definition record_Resume (sw : recorded) : recorded := CallResume :: sw.

(** A function that calls itself once and is then called twice more, and a
    timer whose stop watch records its calls, on a machine with a 64-bit
    [size_t]. *)
Definition sample_run : activations := Active (Active Idle Idle) (Active Idle (Active Idle Idle)).
Definition sample_timer : ProfileTimerData recorded :=
  ProfileTimerData_new recorded record_Pause [].
Definition recorded_Time (sw : recorded) : Z := 61234.

(** Bit-level rewriting: a goal on [Z.testbit] at a non-negative index is
    reduced to bits of the variables and comparisons of indices. *)
Ltac bits :=
  repeat first
    [ rewrite Z.lor_spec
    | rewrite Z.land_spec
    | rewrite Z.testbit_mod_pow2 by lia
    | rewrite Z.shiftr_spec by lia
    | rewrite Z.shiftl_spec by lia
    | rewrite Z.testbit_0_l
    | rewrite (Z.testbit_neg_r _ _) by lia ].

(** * Properties *)

(** ** Octets and machine integers *)

Lemma Z_of_byte_range (b : byte) : 0 <= Z_of_byte b < 256.
Proof.
  unfold Z_of_byte. pose proof (Byte.to_N_bounded b). lia.
Qed.

Lemma Z_of_byte_of_Z (z : Z) : Z_of_byte (byte_of_Z z) = z mod 256.
Proof.
  unfold Z_of_byte, byte_of_Z.
  assert (Hr : 0 <= z mod 256 < 256) by (apply Z.mod_pos_bound; lia).
  destruct (Byte.of_N (Z.to_N (z mod 256))) as [b|] eqn:E.
  - apply Byte.to_of_N in E. rewrite E. lia.
  - apply Byte.of_N_None_iff in E. lia.
Qed.

Lemma byte_of_Z_of_byte (b : byte) : byte_of_Z (Z_of_byte b) = b.
Proof.
  unfold byte_of_Z, Z_of_byte.
  pose proof (Byte.to_N_bounded b) as Hb.
  rewrite Z.mod_small by lia.
  rewrite N2Z.id, Byte.of_to_N. reflexivity.
Qed.

Lemma byte_of_Z_mod (z : Z) : byte_of_Z (z mod 256) = byte_of_Z z.
Proof.
  unfold byte_of_Z. rewrite Z.mod_mod by lia. reflexivity.
Qed.

Lemma byte_of_Z_congr (x y : Z) : x mod 256 = y mod 256 -> byte_of_Z x = byte_of_Z y.
Proof.
  intros H. unfold byte_of_Z. rewrite H. reflexivity.
Qed.

Lemma to_signed_mod (w x : Z) : 0 < w -> Int.to_signed w x mod 2 ^ w = x mod 2 ^ w.
Proof.
  intros Hw. unfold Int.to_signed.
  assert (H2 : 2 ^ w = 2 * 2 ^ (w - 1)).
  { rewrite <- Z.pow_succ_r by lia. f_equal. lia. }
  assert (Hp : 0 < 2 ^ (w - 1)) by (apply Z.pow_pos_nonneg; lia).
  rewrite Zminus_mod, Z.mod_mod by lia.
  rewrite <- Zminus_mod. f_equal. lia.
Qed.

Lemma to_signed_small (w x : Z) :
  0 < w -> - 2 ^ (w - 1) <= x < 2 ^ (w - 1) -> Int.to_signed w x = x.
Proof.
  intros Hw Hx. unfold Int.to_signed.
  assert (H2 : 2 ^ w = 2 * 2 ^ (w - 1)).
  { rewrite <- Z.pow_succ_r by lia. f_equal. lia. }
  rewrite Z.mod_small by lia. lia.
Qed.

Lemma to_int_of_int (i : Z) : Int.is_int i -> Int.to_int i = i.
Proof.
  unfold Int.is_int, Int.min_int, Int.max_int, Int.to_int, Int.bits.
  intros H. apply to_signed_small; lia.
Qed.

Lemma to_int_congr (x i : Z) :
  Int.is_int i -> x mod 2 ^ 32 = i mod 2 ^ 32 -> Int.to_int x = i.
Proof.
  intros Hi Hx. rewrite <- (to_int_of_int i Hi).
  unfold Int.to_int, Int.to_signed, Int.bits.
  change (32 - 1) with 31.
  rewrite (Zplus_mod x), Hx, <- Zplus_mod. reflexivity.
Qed.

Lemma land_255 (x : Z) : Z.land x 255 = x mod 256.
Proof. change 255 with (Z.ones 8). rewrite Z.land_ones by lia. reflexivity. Qed.

Lemma shiftr_uint_mod (i s : Z) :
  0 <= s -> s + 8 <= 32 ->
  Z.land (Z.shiftr (Int.to_uint i) s) 255 mod 256 = Z.shiftr i s mod 256.
Proof.
  intros Hs Hs8. rewrite land_255, Z.mod_mod by lia.
  unfold Int.to_uint, Int.to_unsigned, Int.bits.
  change 256 with (2 ^ 8).
  apply Z.bits_inj'. intros n Hn. bits.
  destruct (Z.ltb_spec n 8) as [Hlt | Hge]; simpl; [ | reflexivity ].
  destruct (Z.ltb_spec (n + s) 32); [ reflexivity | lia ].
Qed.

Lemma testbit_Z_of_byte (z n : Z) :
  0 <= n < 8 -> Z.testbit (Z_of_byte (byte_of_Z z)) n = Z.testbit z n.
Proof.
  intros Hn. rewrite Z_of_byte_of_Z. change 256 with (2 ^ 8). bits.
  destruct (Z.ltb_spec n 8); [ reflexivity | lia ].
Qed.

(** The octets of a value are put back together by [octets_value]. *)
Lemma octets_value_one (b : byte) : octets_value [b] = Z_of_byte b.
Proof. simpl. rewrite Z.shiftl_0_l, Z.lor_0_r. reflexivity. Qed.

(** ** [Read] *)

Lemma Read_got (f : wxInputStream) (n : Z) :
  fst (Read f n) = take (Z.to_nat n) (remaining f).
Proof. reflexivity. Qed.

Lemma Read_length (f : wxInputStream) (n : Z) :
  length (fst (Read f n)) = Nat.min (Z.to_nat n) (length (remaining f)).
Proof. rewrite Read_got. apply length_take. Qed.

Lemma Read_all (f : wxInputStream) (n : Z) :
  0 <= n -> (Z.to_nat n <= length (remaining f))%nat ->
  snd (Read f n) = SeekI f n.
Proof.
  intros Hn Hle. unfold Read, SeekI. simpl. f_equal.
  fold (remaining f). rewrite length_take. lia.
Qed.

Lemma remaining_input_of (l : list byte) : remaining (input_of l) = l.
Proof. reflexivity. Qed.

(** ** The integer codec when a [wxChar] is one octet *)

Lemma wxChar_store_char (B : Build) (x : Z) :
  wxChar_size B = 1%positive -> wxChar_store B (to_wxChar B x) = [byte_of_Z x].
Proof.
  intros Hs. unfold wxChar_store, host_order, char_size, to_wxChar, wxChar_bits.
  rewrite Hs. change (Pos.to_nat 1) with 1%nat. simpl octets.
  assert (E : byte_of_Z (if wxChar_signed B then Int.to_signed 8 x
                         else Int.to_unsigned 8 x) = byte_of_Z x).
  { apply byte_of_Z_congr. change 256 with (2 ^ 8).
    destruct (wxChar_signed B).
    - apply to_signed_mod. lia.
    - unfold Int.to_unsigned. apply Z.mod_mod. lia. }
  change (8 * 1) with 8. rewrite E.
  destruct (big_endian B); reflexivity.
Qed.

(** On such a build [SaveIntToFile] appends the four octets of [i], least
    significant first. *)
Lemma SaveIntToFile_char (B : Build) (f : wxOutputStream) (i : Z) :
  wxChar_size B = 1%positive ->
  SaveIntToFile B f i =
  f ++ [ byte_of_Z i; byte_of_Z (Z.shiftr i 8);
         byte_of_Z (Z.shiftr i 16); byte_of_Z (Z.shiftr i 24) ].
Proof.
  intros Hs. unfold SaveIntToFile, Write, array_store. simpl map.
  rewrite !wxChar_store_char by assumption. simpl.
  rewrite (byte_of_Z_congr _ _ (shiftr_uint_mod i 0 ltac:(lia) ltac:(lia))).
  rewrite (byte_of_Z_congr _ _ (shiftr_uint_mod i 8 ltac:(lia) ltac:(lia))).
  rewrite (byte_of_Z_congr _ _ (shiftr_uint_mod i 16 ltac:(lia) ltac:(lia))).
  rewrite (byte_of_Z_congr _ _ (shiftr_uint_mod i 24 ltac:(lia) ltac:(lia))).
  rewrite Z.shiftr_0_r. reflexivity.
Qed.

(** ** [LoadIntFromFile] *)

Lemma LoadIntFromFile_short (B : Build) (f : wxInputStream) (i : Z) :
  (length (remaining f) < 4)%nat ->
  LoadIntFromFile B f i = (false, i, snd (Read f 4)).
Proof.
  intros Hlen. unfold LoadIntFromFile.
  pose proof (Read_length f 4) as Hl. change (Z.to_nat 4) with 4%nat in Hl.
  destruct (Read f 4) as [got f'] eqn:E. cbn [fst snd] in Hl |- *.
  replace (length got =? 4)%nat with false; [ reflexivity | ].
  symmetry. apply Nat.eqb_neq. lia.
Qed.

Lemma LoadIntFromFile_full (B : Build) (f : wxInputStream) (i : Z) :
  (4 <= length (remaining f))%nat ->
  LoadIntFromFile B f i =
  (true,
   let c := array_load B (automatic B 4 (take 4 (remaining f))) in
   Int.to_int (Z.lor (Z.lor (Z.lor (Z.shiftl (c 0%nat) 0) (Z.shiftl (c 1%nat) 8))
                            (Z.shiftl (c 2%nat) 16))
                     (Z.shiftl (c 3%nat) 24)),
   SeekI f 4).
Proof.
  intros Hlen. unfold LoadIntFromFile.
  pose proof (Read_length f 4) as Hl. change (Z.to_nat 4) with 4%nat in Hl.
  pose proof (Read_all f 4 ltac:(lia) Hlen) as Hs.
  pose proof (Read_got f 4) as Hg. change (Z.to_nat 4) with 4%nat in Hg.
  destruct (Read f 4) as [got f'] eqn:E. cbn [fst snd] in Hl, Hs, Hg |- *.
  replace (length got =? 4)%nat with true by (symmetry; apply Nat.eqb_eq; lia).
  cbn [negb]. subst. reflexivity.
Qed.

Lemma array_load_char (B : Build) (n : nat) (got : list byte) (k : nat) (b : byte) :
  wxChar_size B = 1%positive -> got !! k = Some b ->
  array_load B (automatic B n got) k = wxChar_load B [b].
Proof.
  intros Hs Hk. unfold array_load, automatic, char_size.
  rewrite Hs. change (Pos.to_nat 1) with 1%nat. rewrite Nat.mul_1_r.
  rewrite (drop_S _ b k) by (apply lookup_app_l_Some; exact Hk).
  reflexivity.
Qed.

Lemma wxChar_load_octet (B : Build) (b : byte) :
  octet_build B -> wxChar_load B [b] = Z_of_byte b.
Proof.
  intros [Hs Hu]. unfold wxChar_load, host_order. rewrite Hu.
  destruct (big_endian B); simpl rev; apply octets_value_one.
Qed.

Lemma wxChar_load_signed_char (B : Build) (b : byte) :
  wxChar_size B = 1%positive -> wxChar_signed B = true ->
  wxChar_load B [b] = Int.to_signed 8 (Z_of_byte b).
Proof.
  intros Hs Hu. unfold wxChar_load, host_order, wxChar_bits. rewrite Hu, Hs.
  change (8 * 1) with 8.
  destruct (big_endian B); simpl rev; rewrite octets_value_one; reflexivity.
Qed.

(** Four octets put together as [LoadIntFromFile] does give back the number
    they were cut from. *)
Lemma octets_combine (i : Z) :
  Z.lor (Z.lor (Z.lor (Z.shiftl (Z_of_byte (byte_of_Z i)) 0)
                      (Z.shiftl (Z_of_byte (byte_of_Z (Z.shiftr i 8))) 8))
               (Z.shiftl (Z_of_byte (byte_of_Z (Z.shiftr i 16))) 16))
        (Z.shiftl (Z_of_byte (byte_of_Z (Z.shiftr i 24))) 24)
  = i mod 2 ^ 32.
Proof.
  rewrite !Z_of_byte_of_Z. change 256 with (2 ^ 8).
  apply Z.bits_inj'. intros n Hn. bits.
  rewrite Z.sub_0_r.
  destruct (Z.ltb_spec n 8), (Z.ltb_spec (n - 8) 8), (Z.ltb_spec (n - 16) 8),
    (Z.ltb_spec (n - 24) 8), (Z.ltb_spec n 32);
    simpl; try lia;
    repeat match goal with
      | |- context [Z.testbit _ ?m] =>
          lazymatch m with
          | n => fail
          | _ => first [ rewrite (Z.testbit_neg_r _ m) by lia
                       | replace m with n by lia ]
          end
      end;
    simpl; rewrite ?orb_false_r, ?orb_false_l; try reflexivity;
    rewrite Z.shiftr_spec by lia; f_equal; lia.
Qed.

(** On a build whose [wxChar] is an unsigned octet, an integer that was
    saved is loaded back. *)
Lemma LoadIntFromFile_SaveIntToFile (B : Build) (i i0 : Z) (rest : list byte) :
  octet_build B -> Int.is_int i ->
  LoadIntFromFile B (input_of (SaveIntToFile B [] i ++ rest)) i0 =
  (true, i, SeekI (input_of (SaveIntToFile B [] i ++ rest)) 4).
Proof.
  intros HB Hi. pose proof HB as [Hs Hu].
  rewrite SaveIntToFile_char by assumption.
  rewrite LoadIntFromFile_full by (rewrite remaining_input_of; simpl; lia).
  rewrite remaining_input_of. simpl take.
  cbv zeta. rewrite take_0.
  set (got := [byte_of_Z i; byte_of_Z (Z.shiftr i 8);
               byte_of_Z (Z.shiftr i 16); byte_of_Z (Z.shiftr i 24)]).
  rewrite (array_load_char B 4 got 0 _ Hs eq_refl).
  rewrite (array_load_char B 4 got 1 _ Hs eq_refl).
  rewrite (array_load_char B 4 got 2 _ Hs eq_refl).
  rewrite (array_load_char B 4 got 3 _ Hs eq_refl).
  rewrite !wxChar_load_octet by assumption.
  rewrite octets_combine.
  f_equal. f_equal. apply to_int_congr; [ assumption | ].
  apply Z.mod_mod. lia.
Qed.

(** On every build whose [wxChar] is a signed octet, 128 comes back as
    -128. *)
Lemma LoadIntFromFile_sign_extends (B : Build) :
  wxChar_size B = 1%positive -> wxChar_signed B = true ->
  LoadIntFromFile B (input_of (SaveIntToFile B [] 128)) 0 =
  (true, -128, SeekI (input_of (SaveIntToFile B [] 128)) 4).
Proof.
  intros Hs Hsg.
  rewrite SaveIntToFile_char by assumption.
  rewrite LoadIntFromFile_full by (rewrite remaining_input_of; simpl; lia).
  rewrite remaining_input_of. cbv zeta.
  set (got := take 4 _).
  rewrite (array_load_char B 4 got 0 _ Hs eq_refl).
  rewrite (array_load_char B 4 got 1 _ Hs eq_refl).
  rewrite (array_load_char B 4 got 2 _ Hs eq_refl).
  rewrite (array_load_char B 4 got 3 _ Hs eq_refl).
  rewrite !wxChar_load_signed_char by assumption.
  reflexivity.
Qed.

(** ** The integer codec when a [wxChar] is wider than an octet *)

Lemma octets_length (n : nat) (u : Z) : length (octets n u) = n.
Proof.
  revert u. induction n as [ | n IH ]; intros u; simpl; [ reflexivity | ].
  rewrite IH. reflexivity.
Qed.

Lemma wxChar_store_length (B : Build) (v : Z) :
  length (wxChar_store B v) = char_size B.
Proof.
  unfold wxChar_store, host_order.
  destruct (big_endian B); rewrite ?length_rev; apply octets_length.
Qed.

(** The four octets written never reach the fourth character of the array:
    the high octet of the integer is lost, and 2^24 is written as 0 is. *)
Lemma SaveIntToFile_wide_drops_high_octet (B : Build) (f : wxOutputStream) :
  wxChar_size B <> 1%positive ->
  SaveIntToFile B f 16777216 = SaveIntToFile B f 0.
Proof.
  intros Hwide. unfold SaveIntToFile, Write, array_store.
  change (Int.to_uint 16777216) with 16777216.
  change (Int.to_uint 0) with 0.
  change (Z.land (Z.shiftr 16777216 0) 255) with 0.
  change (Z.land (Z.shiftr 16777216 8) 255) with 0.
  change (Z.land (Z.shiftr 16777216 16) 255) with 0.
  change (Z.land (Z.shiftr 0 0) 255) with 0.
  change (Z.land (Z.shiftr 0 8) 255) with 0.
  change (Z.land (Z.shiftr 0 16) 255) with 0.
  cbn [map concat]. f_equal.
  set (s0 := wxChar_store B (to_wxChar B 0)).
  assert (Hlen : (2 <= length s0)%nat).
  { unfold s0. rewrite wxChar_store_length. unfold char_size.
    destruct (wxChar_size B); [ lia | lia | contradiction ]. }
  change (Z.to_nat 4) with 4%nat.
  assert (Hcut : forall tail, take 4 (s0 ++ s0 ++ tail) = take 4 (s0 ++ s0)).
  { intros tail. rewrite (app_assoc s0 s0 tail).
    apply take_app_le. rewrite length_app. lia. }
  rewrite !Hcut. reflexivity.
Qed.

(** ** The string codec *)

Section StringCodecFacts.
Variable B : Build.
Variable wxString : Type.
Variable mb_str : wxString -> option (list byte).
Variable wxString_of : list Z -> wxString.

Lemma char_size_pos : (1 <= char_size B)%nat.
Proof. unfold char_size. lia. Qed.

(** The size [SaveStringToFile] settles on. *)
Lemma SaveStringToFile_size (f : wxOutputStream) (str : wxString) (psz : list byte) :
  mb_str str = Some psz ->
  Z.of_nat (strlen psz) <= Int.max_int ->
  SaveStringToFile B wxString mb_str f str =
  let size := Z.min (Z.of_nat (strlen psz)) 32767 in
  SaveIntToFile B f size ++ take (Z.to_nat size) psz.
Proof.
  intros Hpsz Hlen. unfold SaveStringToFile. rewrite Hpsz.
  rewrite to_int_of_int
    by (unfold Int.is_int, Int.min_int, Int.max_int in *; lia).
  cbv zeta.
  destruct (Z.leb_spec 32767 (Z.of_nat (strlen psz))) as [Hbig | Hsmall].
  - rewrite Z.min_r by lia. reflexivity.
  - rewrite Z.min_l by lia.
    destruct (Z.eqb_spec (Z.of_nat (strlen psz)) 0) as [E | E].
    + rewrite E. rewrite take_0, app_nil_r. reflexivity.
    + reflexivity.
Qed.

Lemma SaveStringToFile_null (f : wxOutputStream) (str : wxString) :
  mb_str str = None -> SaveStringToFile B wxString mb_str f str = SaveIntToFile B f 0.
Proof.
  intros Hpsz. unfold SaveStringToFile. rewrite Hpsz. reflexivity.
Qed.

(** The guard of the first branch keeps every access inside [buf]. *)
Lemma read_into_buf_in_bounds (f : wxInputStream) (size : Z) :
  0 < size <= 32767 ->
  read_into_buf B wxString wxString_of f size =
  Some ((length (fst (Read f size)) =? Z.to_nat size)%nat,
        wxString_of
          (c_str (map (array_load B (automatic B (Z.to_nat buf_size) (fst (Read f size))))
                      (seq 0 (Z.to_nat size)))),
        snd (Read f size)).
Proof.
  intros Hsize. unfold read_into_buf.
  destruct (Read f size) as [got f'].
  pose proof char_size_pos.
  replace ((0 <=? size) && (size <=? buf_size * Z.of_nat (char_size B))
           && (size <? buf_size)) with true; [ reflexivity | ].
  symmetry. unfold buf_size. rewrite !andb_true_iff.
  repeat split; [ apply Z.leb_le | apply Z.leb_le | apply Z.ltb_lt ]; nia.
Qed.

(** Outside the guard the terminator would land outside [buf]. *)
Lemma read_into_buf_overrun (f : wxInputStream) (size : Z) :
  size < 0 \/ buf_size <= size ->
  read_into_buf B wxString wxString_of f size = None.
Proof.
  intros Hsize. unfold read_into_buf.
  destruct (Read f size) as [got f'].
  replace ((0 <=? size) && (size <=? buf_size * Z.of_nat (char_size B))
           && (size <? buf_size)) with false; [ reflexivity | ].
  symmetry. rewrite !andb_false_iff.
  destruct Hsize; [ left; left; apply Z.leb_gt | right; apply Z.ltb_ge ]; lia.
Qed.

Lemma LoadStringFromFile_read (f f1 : wxInputStream) (str : wxString) (size : Z) :
  LoadIntFromFile B f 0 = (true, size, f1) ->
  0 < size <= 32767 ->
  LoadStringFromFile B wxString wxString_of f str = read_into_buf B wxString wxString_of f1 size.
Proof.
  intros Hint Hsize. unfold LoadStringFromFile. rewrite Hint. cbn [negb].
  replace ((0 <? size) && (size <=? 32767)) with true; [ reflexivity | ].
  symmetry. apply andb_true_iff.
  split; [ apply Z.ltb_lt | apply Z.leb_le ]; lia.
Qed.

Lemma LoadStringFromFile_skip (f f1 : wxInputStream) (str : wxString) (size : Z) :
  LoadIntFromFile B f 0 = (true, size, f1) ->
  ~ 0 < size <= 32767 ->
  LoadStringFromFile B wxString wxString_of f str =
  Some (true, Empty wxString wxString_of, SeekI f1 (Z.land size 16777215)).
Proof.
  intros Hint Hsize. unfold LoadStringFromFile. rewrite Hint. cbn [negb].
  replace ((0 <? size) && (size <=? 32767)) with false; [ reflexivity | ].
  symmetry. apply andb_false_iff.
  destruct (Z.ltb_spec 0 size); [ right; apply Z.leb_gt; lia | left; reflexivity ].
Qed.

Lemma LoadStringFromFile_fail (f : wxInputStream) (str : wxString) :
  (length (remaining f) < 4)%nat ->
  LoadStringFromFile B wxString wxString_of f str = Some (false, str, snd (Read f 4)).
Proof.
  intros Hlen. unfold LoadStringFromFile.
  rewrite LoadIntFromFile_short by assumption. reflexivity.
Qed.
End StringCodecFacts.

(** ** The string round trip when a [wxChar] is an unsigned octet *)

Lemma is_nul_Z (b : byte) : is_nul b = (Z_of_byte b =? 0).
Proof. destruct b; reflexivity. Qed.

Lemma c_str_no_nul (psz : list byte) :
  strlen psz = length psz -> c_str (map Z_of_byte psz) = map Z_of_byte psz.
Proof.
  induction psz as [ | b rest IH ]; simpl; [ reflexivity | ].
  rewrite <- is_nul_Z. destruct (is_nul b); [ discriminate | ].
  intros H. f_equal. apply IH. congruence.
Qed.

Lemma strlen_le (psz : list byte) : (strlen psz <= length psz)%nat.
Proof.
  induction psz as [ | b rest IH ]; simpl; [ lia | ].
  destruct (is_nul b); lia.
Qed.

Lemma buf_chars_octet (B : Build) (n : nat) (got : list byte) :
  octet_build B ->
  map (array_load B (automatic B n got)) (seq 0 (length got)) = map Z_of_byte got.
Proof.
  intros HB. pose proof HB as [Hs Hu].
  apply list_eq. intros k. rewrite !list_lookup_fmap.
  destruct (got !! k) as [b | ] eqn:Hk.
  - rewrite lookup_seq_lt by (apply lookup_lt_Some in Hk; exact Hk).
    simpl. rewrite (array_load_char B n got k b Hs Hk).
    rewrite wxChar_load_octet by assumption. reflexivity.
  - rewrite lookup_seq_ge by (apply lookup_ge_None in Hk; exact Hk).
    reflexivity.
Qed.

Lemma SaveIntToFile_length (B : Build) (f : wxOutputStream) (i : Z) :
  wxChar_size B = 1%positive -> length (SaveIntToFile B f i) = (length f + 4)%nat.
Proof.
  intros Hs. rewrite SaveIntToFile_char by assumption.
  rewrite length_app. reflexivity.
Qed.

Section RoundTrip.
Variable B : Build.
Variable wxString : Type.
Variable mb_str : wxString -> option (list byte).
Variable wxString_of : list Z -> wxString.
Hypothesis unsigned_octets : octet_build B.

(** A string whose encoding has no zero octet and at most 32767 octets,
    and which the constructor rebuilds from that encoding, comes back from
    the stream it was saved to. *)
Lemma LoadStringFromFile_SaveStringToFile (str str0 : wxString) (psz : list byte) :
  mb_str str = Some psz ->
  strlen psz = length psz ->
  Z.of_nat (length psz) <= 32767 ->
  wxString_of (map Z_of_byte psz) = str ->
  let data := SaveStringToFile B wxString mb_str [] str in
  LoadStringFromFile B wxString wxString_of (input_of data) str0 =
  Some (true, str,
        {| stream_data := data; stream_pos := 4 + Z.of_nat (length psz) |}).
Proof.
  intros Hpsz Hnul Hlen Hctor data. pose proof unsigned_octets as [Hs Hu].
  assert (Hdata : data = SaveIntToFile B [] (Z.of_nat (length psz)) ++ psz).
  { unfold data.
    rewrite (SaveStringToFile_size B wxString mb_str [] str psz Hpsz)
      by (unfold Int.max_int; lia).
    cbv zeta. rewrite Hnul, Z.min_l by lia.
    rewrite Nat2Z.id, firstn_all. reflexivity. }
  assert (Hint : LoadIntFromFile B (input_of data) 0 =
                 (true, Z.of_nat (length psz), SeekI (input_of data) 4)).
  { rewrite Hdata. apply LoadIntFromFile_SaveIntToFile; [ assumption | ].
    unfold Int.is_int, Int.min_int, Int.max_int. lia. }
  destruct (Nat.eq_dec (length psz) 0%nat) as [Hz | Hnz].
  - rewrite (LoadStringFromFile_skip B wxString wxString_of _ _ _ _ Hint) by lia.
    rewrite Hz. apply length_zero_iff_nil in Hz. subst psz.
    unfold Empty. simpl in Hctor. rewrite Hctor. reflexivity.
  - rewrite (LoadStringFromFile_read B wxString wxString_of _ _ _ _ Hint) by lia.
    rewrite read_into_buf_in_bounds by lia.
    assert (Hrem : remaining (SeekI (input_of data) 4) = psz).
    { unfold remaining, SeekI, input_of. simpl. rewrite Hdata.
      rewrite drop_app_length'; [ reflexivity | ].
      rewrite (SaveIntToFile_length B [] _ Hs). reflexivity. }
    assert (Hgot : fst (Read (SeekI (input_of data) 4) (Z.of_nat (length psz))) = psz).
    { rewrite Read_got, Hrem, Nat2Z.id. apply firstn_all. }
    rewrite Hgot, Nat2Z.id, Nat.eqb_refl.
    rewrite buf_chars_octet by assumption.
    rewrite c_str_no_nul by assumption. rewrite Hctor.
    rewrite Read_all by (rewrite ?Hrem, ?Nat2Z.id; lia).
    reflexivity.
Qed.
End RoundTrip.

(** ** The inheritance walk *)

Lemma RecalcFullInheritance_unfold (fuel : nat) (t : TokensTree) (p : Z)
    (result : TokenIdxSet) :
  RecalcFullInheritance (S fuel) t p result =
  match at_ GetTokenAt t p with
  | None => Some result
  | Some ancestor =>
      set_fold
        (fun (a : Z) (acc : option TokenIdxSet) =>
           match acc with
           | None => None
           | Some result =>
               if decide (a ∈ result) then Some result
               else RecalcFullInheritance fuel t a ({[ a ]} ∪ result)
           end)
        (Some result) (m_DirectAncestors ancestor)
  end.
Proof. reflexivity. Qed.

Lemma GetTokenAt_slot (t : TokensTree) (idx : Z) (tok : Token) :
  GetTokenAt t idx = Some tok -> idx ∈ slots t.
Proof.
  unfold GetTokenAt, slots. intros H.
  apply elem_of_list_to_set, elem_of_seqZ.
  destruct (Z.ltb_spec idx 0); [ discriminate | ].
  destruct (Z.leb_spec (Z.of_nat (length (m_Tokens t))) idx); [ discriminate | ].
  lia.
Qed.

Lemma size_slots (t : TokensTree) : size (slots t) = length (m_Tokens t).
Proof.
  unfold slots. rewrite size_list_to_set by apply NoDup_seqZ.
  rewrite length_seqZ. lia.
Qed.

(** A walk is never short of fuel when it has two units more than there are
    slots it has not yet put in [result]: each descent into a live record
    adds a new slot to [result]. *)
Lemma RecalcFullInheritance_terminates (t : TokensTree) :
  forall (fuel : nat) (p : Z) (result : TokenIdxSet),
    (size (slots t ∖ result) + 2 <= fuel)%nat ->
    exists result', RecalcFullInheritance fuel t p result = Some result'
                    /\ result ⊆ result'.
Proof.
  induction fuel as [ | fuel IH ]; intros p result Hfuel; [ lia | ].
  rewrite RecalcFullInheritance_unfold.
  destruct (at_ GetTokenAt t p) as [ ancestor | ]; [ | exists result; split; done ].
  apply (set_fold_ind_L
           (fun (acc : option TokenIdxSet) (_ : TokenIdxSet) =>
              exists result', acc = Some result' /\ result ⊆ result')).
  { exists result. split; done. }
  intros a X acc _ (r1 & -> & Hsub).
  destruct (decide (a ∈ r1)) as [ Hin | Hnew ]; [ exists r1; split; done | ].
  assert (Hmono : (size (slots t ∖ r1) <= size (slots t ∖ result))%nat)
    by (apply subseteq_size; set_solver).
  destruct (decide (a ∈ slots t)) as [ Hslot | Hout ].
  - destruct (IH a ({[ a ]} ∪ r1)) as (r2 & Hr2 & Hsub2).
    + assert ((size (slots t ∖ ({[ a ]} ∪ r1)) < size (slots t ∖ r1))%nat).
      { apply subset_size. set_solver. }
      lia.
    + exists r2. split; [ exact Hr2 | set_solver ].
  - destruct fuel as [ | fuel ]; [ lia | ].
    rewrite RecalcFullInheritance_unfold.
    destruct (at_ GetTokenAt t a) as [ tok | ] eqn:Ha.
    + apply GetTokenAt_slot in Ha. contradiction.
    + exists ({[ a ]} ∪ r1). split; [ reflexivity | set_solver ].
Qed.

(** More fuel does not change what a finished walk found. *)
Lemma RecalcFullInheritance_more_fuel (t : TokensTree) :
  forall (fuel : nat) (p : Z) (result result' : TokenIdxSet),
    RecalcFullInheritance fuel t p result = Some result' ->
    RecalcFullInheritance (S fuel) t p result = Some result'.
Proof.
  induction fuel as [ | fuel IH ]; intros p result result' Hwalk;
    [ discriminate | ].
  rewrite RecalcFullInheritance_unfold in Hwalk |- *.
  destruct (at_ GetTokenAt t p) as [ ancestor | ]; [ | exact Hwalk ].
  unfold set_fold, compose in Hwalk |- *.
  revert result' Hwalk.
  induction (elements (m_DirectAncestors ancestor)) as [ | a l IHl ];
    intros result' Hwalk; [ exact Hwalk | ].
  cbn [foldr] in Hwalk |- *.
  destruct (foldr _ (Some result) l) as [ r1 | ] eqn:Hl in Hwalk;
    [ | discriminate ].
  rewrite (IHl r1 Hl).
  destruct (decide (a ∈ r1)); [ exact Hwalk | ].
  apply IH. exact Hwalk.
Qed.

Lemma RecalcFullInheritance_fuel_le (t : TokensTree) (fuel more : nat) (p : Z)
    (result result' : TokenIdxSet) :
  RecalcFullInheritance fuel t p result = Some result' ->
  RecalcFullInheritance (fuel + more) t p result = Some result'.
Proof.
  intros Hwalk. induction more as [ | more IH ].
  - rewrite Nat.add_0_r. exact Hwalk.
  - rewrite Nat.add_succ_r. apply RecalcFullInheritance_more_fuel. exact IH.
Qed.

Lemma RecalcInheritanceChain_terminates (t : TokensTree) (idx : Z) (fuel : nat) :
  (enough_fuel t <= fuel)%nat -> is_Some (RecalcInheritanceChain fuel t idx).
Proof.
  intros Hfuel. unfold RecalcInheritanceChain.
  destruct (at_ GetTokenAt t idx) as [ token | ]; [ | eexists; reflexivity ].
  destruct (RecalcFullInheritance_terminates t fuel idx ∅) as (result & -> & _).
  - assert ((size (slots t ∖ ∅) <= size (slots t))%nat)
      by (apply subseteq_size; set_solver).
    rewrite size_slots in *. unfold enough_fuel in Hfuel. lia.
  - eexists; reflexivity.
Qed.

(** The walk on the trees above: the chain, the two-element cycle and the
    class that names itself, a freed slot and a slot outside the arena. *)
Example walk_chain :
  Ancestors_at (RecalcInheritanceChain (enough_fuel chain_tree) chain_tree 0) 0
  = Some [2; 1]
  /\ Descendants_at (RecalcInheritanceChain (enough_fuel chain_tree) chain_tree 0) 2
     = Some [0].
Proof. split; vm_compute; reflexivity. Qed.

Example walk_cycle :
  Ancestors_at (RecalcInheritanceChain (enough_fuel cyclic_tree) cyclic_tree 0) 0
  = Some [1]
  /\ Ancestors_at (RecalcInheritanceChain (enough_fuel cyclic_tree) cyclic_tree 3) 3
     = Some [7; 2].
Proof. split; vm_compute; reflexivity. Qed.

(** With too little fuel the walk does not finish. *)
Example walk_out_of_fuel : RecalcInheritanceChain 2 cyclic_tree 0 = None.
Proof. vm_compute. reflexivity. Qed.

(** The modelled [GetTokenAt] gives the null pointer outside the arena and
    at a freed slot. *)
Lemma GetTokenAt_out_of_range (t : TokensTree) (idx : Z) :
  idx < 0 \/ Z.of_nat (length (m_Tokens t)) <= idx -> GetTokenAt t idx = None.
Proof.
  intros H. unfold GetTokenAt.
  destruct (Z.ltb_spec idx 0); [ reflexivity | ].
  destruct (Z.leb_spec (Z.of_nat (length (m_Tokens t))) idx); [ reflexivity | lia ].
Qed.

Lemma GetTokenAt_freed (t : TokensTree) (idx : Z) :
  m_Tokens t !! Z.to_nat idx = Some None -> GetTokenAt t idx = None.
Proof.
  intros H. unfold GetTokenAt. rewrite H.
  destruct ((idx <? 0) || (Z.of_nat (length (m_Tokens t)) <=? idx)); reflexivity.
Qed.

(** ** The codec at work *)

Example save_int_octets :
  SaveIntToFile ansi_x86 [] 0x12345678 = [Byte.x78; Byte.x56; Byte.x34; Byte.x12]
  /\ SaveIntToFile ansi_arm [] (-2) = [Byte.xfe; Byte.xff; Byte.xff; Byte.xff].
Proof. split; reflexivity. Qed.

Example load_int_at_end_of_stream :
  LoadIntFromFile ansi_arm (input_of [Byte.x01; Byte.x02]) 77
  = (false, 77, SeekI (input_of [Byte.x01; Byte.x02]) 2).
Proof. reflexivity. Qed.

Example save_then_load_string :
  save_octets ansi_arm [] [Byte.x61; Byte.x62; Byte.x63]
  = [Byte.x03; Byte.x00; Byte.x00; Byte.x00; Byte.x61; Byte.x62; Byte.x63]
  /\ load_octets ansi_arm
       (input_of [Byte.x03; Byte.x00; Byte.x00; Byte.x00; Byte.x61; Byte.x62; Byte.x63])
       []
     = Some (true, [Byte.x61; Byte.x62; Byte.x63],
             SeekI (input_of [Byte.x03; Byte.x00; Byte.x00; Byte.x00;
                              Byte.x61; Byte.x62; Byte.x63]) 7).
Proof. split; vm_compute; reflexivity. Qed.

(** A stream that ends inside a string: the flag is false. *)
Example load_string_cut_short :
  load_octets ansi_arm
    (input_of [Byte.x05; Byte.x00; Byte.x00; Byte.x00; Byte.x61; Byte.x62]) []
  = Some (false, [Byte.x61; Byte.x62],
          SeekI (input_of [Byte.x05; Byte.x00; Byte.x00; Byte.x00;
                           Byte.x61; Byte.x62]) 6).
Proof. vm_compute. reflexivity. Qed.

(** A length of zero and a negative length both take the second branch. *)
Example load_string_zero_and_negative :
  load_octets ansi_arm (input_of [Byte.x00; Byte.x00; Byte.x00; Byte.x00; Byte.x61])
    [Byte.x7a]
  = Some (true, [],
          SeekI (input_of [Byte.x00; Byte.x00; Byte.x00; Byte.x00; Byte.x61]) 4)
  /\ load_octets ansi_arm (input_of [Byte.xff; Byte.xff; Byte.xff; Byte.xff; Byte.x61])
       [Byte.x7a]
     = Some (true, [],
             SeekI (input_of [Byte.xff; Byte.xff; Byte.xff; Byte.xff; Byte.x61])
                   (4 + 0xFFFFFF)).
Proof. split; vm_compute; reflexivity. Qed.

(** * The claims *)

(** ** The integer codec *)

(** C1 (integer round trip).  The claim is that every 32-bit integer written
    by [SaveIntToFile] is read back by [LoadIntFromFile], on any platform.
    The code does not do it where [wxChar] is a signed [char]: the octet
    [0x80] that [SaveIntToFile] writes for 128 is read into a [wxChar],
    promoted to a negative [int] and sign-extended by [c[0]<<0], so
    [LoadIntFromFile] returns true with -128; [LoadIntFromFile_sign_extends]
    has it for every such build.  Where [wxChar] is wider than an octet the
    high octet is not even written ([SaveIntToFile_wide_drops_high_octet]).
    [LoadIntFromFile_SaveIntToFile] has the round trip for the builds whose
    [wxChar] is an unsigned octet. *)
Theorem int_round_trip_signed_char :
  SaveIntToFile ansi_x86 [] 128 = [Byte.x80; Byte.x00; Byte.x00; Byte.x00]
  /\ LoadIntFromFile ansi_x86 (input_of (SaveIntToFile ansi_x86 [] 128)) 0
     = (true, -128, SeekI (input_of (SaveIntToFile ansi_x86 [] 128)) 4).
Proof. split; vm_compute; reflexivity. Qed.

(** C5 (integer format).  The claim is that [SaveIntToFile] writes the four
    octets of the value, least significant first, whatever the host.  Where
    [wxChar] is [wchar_t] the four octets [Write(c, 4)] takes from the array
    are those of its first character (of its first two, when [wchar_t] has 16
    bits): the value 0x12345678 is written as 78 00 00 00 or 78 00 56 00, on
    a big-endian host as 00 00 00 78, and 256 is written as 0 is;
    [SaveIntToFile_wide_drops_high_octet] has the loss of the high octet
    for every such build.  [SaveIntToFile_char] has the claimed format for
    the builds whose [wxChar] is one octet. *)
Theorem SaveIntToFile_wide_char :
  SaveIntToFile unicode_linux [] 0x12345678 = [Byte.x78; Byte.x00; Byte.x00; Byte.x00]
  /\ SaveIntToFile unicode_windows [] 0x12345678 = [Byte.x78; Byte.x00; Byte.x56; Byte.x00]
  /\ SaveIntToFile unicode_big_endian [] 0x12345678 = [Byte.x00; Byte.x00; Byte.x00; Byte.x78]
  /\ SaveIntToFile unicode_linux [] 256 = SaveIntToFile unicode_linux [] 0.
Proof. repeat split; vm_compute; reflexivity. Qed.

(** C6 (short read).  When fewer than four octets are left,
    [LoadIntFromFile] returns false and leaves [*i] as it was; the octets
    that were there are consumed.  When four octets are left it returns
    true and the stream has moved by four.  This holds on every build. *)
Theorem LoadIntFromFile_short_read (B : Build) (f : wxInputStream) (i : Z) :
  ((length (remaining f) < 4)%nat ->
     LoadIntFromFile B f i = (false, i, snd (Read f 4)))
  /\ ((4 <= length (remaining f))%nat ->
        exists v, LoadIntFromFile B f i = (true, v, SeekI f 4)).
Proof.
  split; intros Hlen.
  - apply LoadIntFromFile_short. exact Hlen.
  - eexists. apply LoadIntFromFile_full. exact Hlen.
Qed.

(** ** The string codec *)

(** C2 (string round trip).  The claim is that every string of at most 32767
    encoded octets is read back by [LoadStringFromFile] from what
    [SaveStringToFile] wrote.  Where [wxChar] is a signed [char] a name of
    128 letters is not: its length prefix 80 00 00 00 is loaded as -128 (the
    defect of C1), which takes the second branch, so [LoadStringFromFile]
    returns true with the empty string and the stream 16777088 octets
    further.  [LoadStringFromFile_SaveStringToFile] has the round trip for
    the builds whose [wxChar] is an unsigned octet. *)
Theorem string_round_trip_signed_char :
  load_octets ansi_x86 (input_of (save_octets ansi_x86 [] name_128)) []
  = Some (true, [],
          SeekI (SeekI (input_of (save_octets ansi_x86 [] name_128)) 4) 16777088).
Proof. vm_compute. reflexivity. Qed.

(** C3 (truncation on encoding).  The claim is that [SaveStringToFile]
    writes the length of the encoding, 32767 when the encoding is longer,
    and then that many octets of it.  The octets of the string are written
    so on every build, but the length goes through [SaveIntToFile], and
    where [wxChar] is [wchar_t] the four octets it writes do not hold the
    length (the defect of C5): a string of 300 letters is written after
    2C 00 00 00, the prefix of a string of 44 letters (2C 00 01 00 when
    [wchar_t] has 16 bits), and one of 40000 letters is cut to 32767 octets
    and written after FF 00 00 00, the prefix for 255 (FF 00 7F 00 with 16
    bits).  Where [wxChar] is one octet the prefix of the 300 letters is
    2C 01 00 00. *)
Theorem SaveStringToFile_wide_char :
  save_octets unicode_linux [] name_300
  = [Byte.x2c; Byte.x00; Byte.x00; Byte.x00] ++ name_300
  /\ save_octets unicode_windows [] name_300
     = [Byte.x2c; Byte.x00; Byte.x01; Byte.x00] ++ name_300
  /\ save_octets unicode_linux [] name_40000
     = [Byte.xff; Byte.x00; Byte.x00; Byte.x00] ++ take (Z.to_nat 32767) name_40000
  /\ save_octets unicode_windows [] name_40000
     = [Byte.xff; Byte.x00; Byte.x7f; Byte.x00] ++ take (Z.to_nat 32767) name_40000
  /\ SaveIntToFile unicode_linux [] 300 = SaveIntToFile unicode_linux [] 44
  /\ SaveIntToFile unicode_linux [] 32767 = SaveIntToFile unicode_linux [] 255
  /\ save_octets ansi_x86 [] name_300
     = [Byte.x2c; Byte.x01; Byte.x00; Byte.x00] ++ name_300.
Proof.
  assert (Hlong : forall B : Build,
             save_octets B [] name_40000
             = SaveIntToFile B [] 32767 ++ take (Z.to_nat 32767) name_40000).
  { intros B. unfold save_octets.
    rewrite (SaveStringToFile_size B octet_string octet_mb_str [] name_40000
               name_40000 eq_refl)
      by (vm_compute; discriminate).
    cbv zeta.
    replace (Z.min (Z.of_nat (strlen name_40000)) 32767) with 32767
      by (vm_compute; reflexivity).
    reflexivity. }
  split; [ vm_compute; reflexivity | ].
  split; [ vm_compute; reflexivity | ].
  split; [ rewrite Hlong; reflexivity | ].
  split; [ rewrite Hlong; reflexivity | ].
  repeat split; vm_compute; reflexivity.
Qed.

(** C4 (over-range length on decoding).  When the length prefix that
    [LoadStringFromFile] reads is greater than 32767, the string is emptied,
    the stream is moved forward by the prefix masked with 0xFFFFFF, from
    where the prefix ended, and true is returned. *)
Theorem LoadStringFromFile_over_range (B : Build) (wxString : Type)
    (wxString_of : list Z -> wxString)
    (f f1 : wxInputStream) (str : wxString) (size : Z) :
  LoadIntFromFile B f 0 = (true, size, f1) ->
  32767 < size ->
  LoadStringFromFile B wxString wxString_of f str
  = Some (true, Empty wxString wxString_of, SeekI f1 (Z.land size 0xFFFFFF))
  /\ stream_pos (SeekI f1 (Z.land size 0xFFFFFF))
     = stream_pos f + 4 + Z.land size 0xFFFFFF.
Proof.
  intros Hint Hsize. split.
  - apply LoadStringFromFile_skip; [ exact Hint | lia ].
  - destruct (le_lt_dec 4 (length (remaining f))) as [ Hfull | Hshort ].
    + rewrite LoadIntFromFile_full in Hint by exact Hfull.
      injection Hint as _ <-. reflexivity.
    + rewrite LoadIntFromFile_short in Hint by exact Hshort. discriminate.
Qed.

Lemma LoadStringFromFile_over_range_witness :
  load_octets ansi_x86
    (input_of [Byte.x00; Byte.x00; Byte.x01; Byte.x00; Byte.x61; Byte.x62]) [Byte.x7a]
  = Some (true, Empty octet_string octet_string_of,
          SeekI (SeekI (input_of [Byte.x00; Byte.x00; Byte.x01; Byte.x00;
                                  Byte.x61; Byte.x62]) 4)
                (Z.land 65536 0xFFFFFF))
  /\ stream_pos
       (SeekI (SeekI (input_of [Byte.x00; Byte.x00; Byte.x01; Byte.x00;
                                Byte.x61; Byte.x62]) 4)
              (Z.land 65536 0xFFFFFF))
     = stream_pos (input_of [Byte.x00; Byte.x00; Byte.x01; Byte.x00;
                             Byte.x61; Byte.x62]) + 4 + Z.land 65536 0xFFFFFF.
Proof.
  apply (LoadStringFromFile_over_range ansi_x86 octet_string octet_string_of).
  - vm_compute. reflexivity.
  - vm_compute. reflexivity.
Defined.

(** C9 (the decode buffer).  [LoadStringFromFile] never touches [buf]
    outside its bounds.  When the length prefix [size] is read, the first
    branch, the only one that uses [buf], is taken exactly when
    [0 < size <= 32767]; it then reads [size] octets, which the array holds,
    and writes the terminator at index [size], below [buf_size].  Any other
    prefix, zero and the negative ones included, takes the second branch:
    true, the empty string, and the stream moved by the prefix masked with
    0xFFFFFF. *)
Theorem LoadStringFromFile_buffer_safe (B : Build) (wxString : Type)
    (wxString_of : list Z -> wxString) (f : wxInputStream) (str : wxString) :
  is_Some (LoadStringFromFile B wxString wxString_of f str)
  /\ forall (size : Z) (f1 : wxInputStream),
       LoadIntFromFile B f 0 = (true, size, f1) ->
       (0 < size <= 32767 ->
          LoadStringFromFile B wxString wxString_of f str
          = read_into_buf B wxString wxString_of f1 size
          /\ is_Some (read_into_buf B wxString wxString_of f1 size)
          /\ size <= buf_size * Z.of_nat (char_size B)
          /\ size + 1 <= buf_size)
       /\ (~ 0 < size <= 32767 ->
             LoadStringFromFile B wxString wxString_of f str
             = Some (true, Empty wxString wxString_of,
                     SeekI f1 (Z.land size 0xFFFFFF))).
Proof.
  assert (Hbranches : forall size f1,
             LoadIntFromFile B f 0 = (true, size, f1) ->
             (0 < size <= 32767 ->
                LoadStringFromFile B wxString wxString_of f str
                = read_into_buf B wxString wxString_of f1 size
                /\ is_Some (read_into_buf B wxString wxString_of f1 size)
                /\ size <= buf_size * Z.of_nat (char_size B)
                /\ size + 1 <= buf_size)
             /\ (~ 0 < size <= 32767 ->
                   LoadStringFromFile B wxString wxString_of f str
                   = Some (true, Empty wxString wxString_of,
                           SeekI f1 (Z.land size 0xFFFFFF)))).
  { intros size f1 Hint. split.
    - intros Hsize. pose proof (char_size_pos B). unfold buf_size.
      repeat split; try nia.
      + apply LoadStringFromFile_read; assumption.
      + rewrite read_into_buf_in_bounds by exact Hsize. eexists; reflexivity.
    - intros Hsize. apply LoadStringFromFile_skip; assumption. }
  split; [ | exact Hbranches ].
  destruct (LoadIntFromFile B f 0) as [[loaded size] f1] eqn:Hint.
  destruct loaded.
  - destruct (Hbranches size f1 eq_refl) as [Hread Hskip].
    destruct (Z_lt_dec 0 size) as [Hpos | Hneg];
      [ destruct (Z_le_dec size 32767) as [Hle | Hgt] | ].
    + destruct (Hread ltac:(lia)) as (-> & Hsome & _). exact Hsome.
    + rewrite Hskip by lia. eexists; reflexivity.
    + rewrite Hskip by lia. eexists; reflexivity.
  - unfold LoadStringFromFile. rewrite Hint. eexists; reflexivity.
Qed.

(** ** Token kinds *)

(** C7 (kind flags and masks).  The eleven kinds are single bits, no two of
    them the same bit, and the two masks are the unions the enumeration
    writes: [tkAnyContainer] is class, namespace and typedef (0x000B),
    [tkAnyFunction] is function, constructor and destructor (0x0070). *)
Theorem TokenKind_flags :
  length token_kinds = 11%nat
  /\ (forall k : Z, k ∈ token_kinds -> exists n : Z, 0 <= n < 16 /\ k = 2 ^ n)
  /\ (forall (i j : nat) (a b : Z),
        token_kinds !! i = Some a -> token_kinds !! j = Some b -> i <> j ->
        Z.land a b = 0)
  /\ tkAnyContainer = Z.lor (Z.lor tkClass tkNamespace) tkTypedef
  /\ tkAnyContainer = 0x000B
  /\ tkAnyFunction = Z.lor (Z.lor tkFunction tkConstructor) tkDestructor
  /\ tkAnyFunction = 0x0070.
Proof.
  split; [ reflexivity | ].
  split.
  { intros k Hk. unfold token_kinds in Hk.
    repeat (apply elem_of_cons in Hk as [ -> | Hk ]);
      [ exists 0 | exists 1 | exists 2 | exists 3 | exists 4 | exists 5
      | exists 6 | exists 7 | exists 8 | exists 9 | exists 10 | ];
      try (split; [ lia | reflexivity ]).
    apply elem_of_nil in Hk. contradiction. }
  split.
  { intros i j a b Hi Hj Hij. unfold token_kinds in Hi, Hj.
    repeat (destruct i as [ | i ]; [ injection Hi as <- | simpl in Hi ]);
      try discriminate Hi;
      repeat (destruct j as [ | j ]; [ injection Hj as <- | simpl in Hj ]);
      try discriminate Hj;
      first [ reflexivity | contradiction ]. }
  repeat split.
Qed.

(** ** The accessors *)

(** C10 (accessor equivalence).  [operator[]] and [at] are both
    [GetTokenAt(idx)]: whatever [GetTokenAt] does, they return the same
    pointer for every tree and index, so one is null exactly when the other
    is. *)
Theorem operator_subscript_at (GetTokenAt' : TokensTree -> Z -> TokenPtr)
    (t : TokensTree) (idx : Z) :
  operator_subscript GetTokenAt' t idx = at_ GetTokenAt' t idx
  /\ (operator_subscript GetTokenAt' t idx = None <-> at_ GetTokenAt' t idx = None).
Proof.
  unfold operator_subscript, at_. split; [ reflexivity | tauto ].
Qed.

(** ** The inheritance walk *)

(** C8 (termination under cycles).  For every tree, whatever its
    direct-ancestor sets hold (cycles, records that name themselves, freed
    slots, identities outside the arena), and for every slot,
    [RecalcInheritanceChain] finishes with a tree once it is given
    [enough_fuel]; any larger amount gives the same tree. *)
Theorem RecalcInheritanceChain_finishes (t : TokensTree) (idx : Z) (more : nat) :
  is_Some (RecalcInheritanceChain (enough_fuel t) t idx)
  /\ RecalcInheritanceChain (enough_fuel t + more) t idx
     = RecalcInheritanceChain (enough_fuel t) t idx.
Proof.
  pose proof (RecalcInheritanceChain_terminates t idx (enough_fuel t) (le_n _))
    as Hsome.
  split; [ exact Hsome | ].
  unfold RecalcInheritanceChain in Hsome |- *.
  destruct (at_ GetTokenAt t idx) as [ token | ]; [ | reflexivity ].
  destruct (RecalcFullInheritance (enough_fuel t) t idx ∅) as [ result | ] eqn:Hwalk.
  - rewrite (RecalcFullInheritance_fuel_le t _ more _ _ _ Hwalk). reflexivity.
  - destruct Hsome as [ t' Ht' ]. discriminate.
Qed.
(** * The codec where a [wxChar] is one octet

    What the spec says of the codec holds on the builds whose [wxChar] is one
    octet wide (the format) and unsigned (the round trips). *)

(** On a build whose [wxChar] is one octet, [SaveIntToFile] appends four
    octets, and octet [k] holds bits [8k] to [8k+7] of the value. *)
Theorem SaveIntToFile_little_endian (B : Build) (f : wxOutputStream) (i : Z) :
  wxChar_size B = 1%positive ->
  exists b0 b1 b2 b3 : byte,
    SaveIntToFile B f i = f ++ [b0; b1; b2; b3]
    /\ forall n : Z, 0 <= n < 8 ->
         Z.testbit (Z_of_byte b0) n = Z.testbit i n
         /\ Z.testbit (Z_of_byte b1) n = Z.testbit i (8 + n)
         /\ Z.testbit (Z_of_byte b2) n = Z.testbit i (16 + n)
         /\ Z.testbit (Z_of_byte b3) n = Z.testbit i (24 + n).
Proof.
  intros Hs. do 4 eexists. split.
  - apply SaveIntToFile_char. exact Hs.
  - intros n Hn. rewrite !testbit_Z_of_byte by exact Hn.
    rewrite !Z.shiftr_spec by lia.
    repeat split; f_equal; lia.
Qed.

Lemma SaveIntToFile_little_endian_witness :
  exists b0 b1 b2 b3 : byte,
    SaveIntToFile ansi_x86 [] 0x12345678 = [] ++ [b0; b1; b2; b3]
    /\ forall n : Z, 0 <= n < 8 ->
         Z.testbit (Z_of_byte b0) n = Z.testbit 0x12345678 n
         /\ Z.testbit (Z_of_byte b1) n = Z.testbit 0x12345678 (8 + n)
         /\ Z.testbit (Z_of_byte b2) n = Z.testbit 0x12345678 (16 + n)
         /\ Z.testbit (Z_of_byte b3) n = Z.testbit 0x12345678 (24 + n).
Proof.
  apply (SaveIntToFile_little_endian ansi_x86 [] 0x12345678). reflexivity.
Defined.

(** On a build whose [wxChar] is an unsigned octet, every 32-bit integer
    that was saved is loaded back, whatever follows it in the stream. *)
Theorem int_round_trip_unsigned_octets (B : Build) (i i0 : Z) (rest : list byte) :
  octet_build B -> Int.is_int i ->
  LoadIntFromFile B (input_of (SaveIntToFile B [] i ++ rest)) i0 =
  (true, i, SeekI (input_of (SaveIntToFile B [] i ++ rest)) 4).
Proof.
  intros HB Hi. apply LoadIntFromFile_SaveIntToFile; assumption.
Qed.

Lemma int_round_trip_unsigned_octets_witness :
  LoadIntFromFile ansi_arm (input_of (SaveIntToFile ansi_arm [] (-2) ++ [Byte.x61])) 0 =
  (true, -2, SeekI (input_of (SaveIntToFile ansi_arm [] (-2) ++ [Byte.x61])) 4).
Proof.
  apply (int_round_trip_unsigned_octets ansi_arm (-2) 0 [Byte.x61]).
  - split; reflexivity.
  - split; vm_compute; discriminate.
Defined.

(** On such a build a string is loaded back from what was saved, when its
    encoding has no zero octet and at most 32767 octets and the constructor
    rebuilds the string from its encoding. *)
Theorem string_round_trip_unsigned_octets (B : Build) (wxString : Type)
    (mb_str : wxString -> option (list byte)) (wxString_of : list Z -> wxString)
    (str str0 : wxString) (psz : list byte) :
  octet_build B ->
  mb_str str = Some psz ->
  strlen psz = length psz ->
  Z.of_nat (length psz) <= 32767 ->
  wxString_of (map Z_of_byte psz) = str ->
  LoadStringFromFile B wxString wxString_of
    (input_of (SaveStringToFile B wxString mb_str [] str)) str0 =
  Some (true, str,
        {| stream_data := SaveStringToFile B wxString mb_str [] str;
           stream_pos := 4 + Z.of_nat (length psz) |}).
Proof.
  intros HB Hpsz Hnul Hlen Hctor.
  apply (LoadStringFromFile_SaveStringToFile B wxString mb_str wxString_of HB
           str str0 psz Hpsz Hnul Hlen Hctor).
Qed.

Lemma string_round_trip_unsigned_octets_witness :
  load_octets ansi_arm (input_of (save_octets ansi_arm [] name_128)) [] =
  Some (true, name_128,
        {| stream_data := save_octets ansi_arm [] name_128;
           stream_pos := 4 + Z.of_nat (length name_128) |}).
Proof.
  apply (string_round_trip_unsigned_octets ansi_arm octet_string octet_mb_str
           octet_string_of name_128 [] name_128).
  - split; reflexivity.
  - reflexivity.
  - vm_compute. reflexivity.
  - vm_compute. discriminate.
  - vm_compute. reflexivity.
Defined.

(** * More of the codec *)

(** ** Records in the stream *)

Lemma SaveIntToFile_frame (B : Build) (f : wxOutputStream) (i : Z) :
  SaveIntToFile B f i = f ++ SaveIntToFile B [] i.
Proof. reflexivity. Qed.

Lemma array_store_length (B : Build) (c : list Z) :
  length (array_store B c) = (length c * char_size B)%nat.
Proof.
  unfold array_store. induction c as [ | v c IH ]; simpl; [ reflexivity | ].
  rewrite length_app, wxChar_store_length, IH. reflexivity.
Qed.

Lemma SaveIntToFile_nil_length (B : Build) (i : Z) :
  length (SaveIntToFile B [] i) = 4%nat.
Proof.
  unfold SaveIntToFile, Write. cbn [app].
  rewrite length_take, array_store_length. change (Z.to_nat 4) with 4%nat.
  pose proof (char_size_pos B). simpl length. lia.
Qed.

(** Four octets in front of the read position, on a build whose [wxChar] is
    one octet. *)
Lemma LoadIntFromFile_four (B : Build) (f : wxInputStream) (i0 : Z)
    (b0 b1 b2 b3 : byte) (rest : list byte) :
  wxChar_size B = 1%positive ->
  remaining f = b0 :: b1 :: b2 :: b3 :: rest ->
  LoadIntFromFile B f i0 =
  (true,
   Int.to_int
     (Z.lor (Z.lor (Z.lor (Z.shiftl (wxChar_load B [b0]) 0)
                          (Z.shiftl (wxChar_load B [b1]) 8))
                   (Z.shiftl (wxChar_load B [b2]) 16))
            (Z.shiftl (wxChar_load B [b3]) 24)),
   SeekI f 4).
Proof.
  intros Hs Hrem.
  rewrite LoadIntFromFile_full by (rewrite Hrem; simpl; lia).
  rewrite Hrem. cbv zeta. simpl take. rewrite take_0.
  set (got := [b0; b1; b2; b3]).
  rewrite (array_load_char B 4 got 0 _ Hs eq_refl).
  rewrite (array_load_char B 4 got 1 _ Hs eq_refl).
  rewrite (array_load_char B 4 got 2 _ Hs eq_refl).
  rewrite (array_load_char B 4 got 3 _ Hs eq_refl).
  reflexivity.
Qed.


(** ** Which integers survive where [char] is signed *)

Lemma octet_bit7 (v : Z) :
  0 <= v < 256 -> Z.testbit v 7 = negb (v <? 128).
Proof.
  intros Hv. destruct (Z.ltb_spec v 128) as [ Hlt | Hge ]; cbn [negb].
  - apply (proj2 (Z.testbit_false v 7 ltac:(lia))). change (2 ^ 7) with 128.
    rewrite Z.div_small by lia. reflexivity.
  - apply (proj2 (Z.testbit_true v 7 ltac:(lia))). change (2 ^ 7) with 128.
    replace (v / 128) with 1; [ reflexivity | ].
    apply (Z.div_unique v 128 1 (v - 128)); lia.
Qed.

Lemma octet_of_bit7 (z : Z) :
  Z.testbit (Z_of_byte (byte_of_Z z)) 7 = Z.testbit z 7.
Proof. apply testbit_Z_of_byte. lia. Qed.

Lemma to_signed_8_high (v : Z) :
  128 <= v < 256 -> Int.to_signed 8 v = v - 256.
Proof.
  intros Hv. unfold Int.to_signed. change (2 ^ (8 - 1)) with 128.
  change (2 ^ 8) with 256.
  replace ((v + 128) mod 256) with (v - 128); [ lia | ].
  apply (Z.mod_unique (v + 128) 256 1 (v - 128)); lia.
Qed.

Lemma testbit_to_signed (w x n : Z) :
  0 < w -> 0 <= n < w -> Z.testbit (Int.to_signed w x) n = Z.testbit x n.
Proof.
  intros Hw Hn.
  pose proof (f_equal (fun z => Z.testbit z n) (to_signed_mod w x Hw)) as E.
  cbv beta in E. rewrite !Z.testbit_mod_pow2 in E by lia.
  destruct (Z.ltb_spec n w); [ exact E | lia ].
Qed.

(** The fourth character may be sign-extended: its high bits fall outside
    the 32 bits of the result. *)
Lemma octets_combine_signed_top (i s3 : Z) :
  (forall n, 0 <= n < 8 ->
     Z.testbit s3 n = Z.testbit (Z_of_byte (byte_of_Z (Z.shiftr i 24))) n) ->
  Z.lor (Z.lor (Z.lor (Z.shiftl (Z_of_byte (byte_of_Z i)) 0)
                      (Z.shiftl (Z_of_byte (byte_of_Z (Z.shiftr i 8))) 8))
               (Z.shiftl (Z_of_byte (byte_of_Z (Z.shiftr i 16))) 16))
        (Z.shiftl s3 24) mod 2 ^ 32
  = i mod 2 ^ 32.
Proof.
  intros Hs3.
  rewrite <- (Z.mod_mod i (2 ^ 32)) by lia. rewrite <- (octets_combine i).
  apply Z.bits_inj'. intros n Hn.
  rewrite !Z.testbit_mod_pow2 by lia.
  destruct (Z.ltb_spec n 32) as [ Hlt | Hge ]; [ | reflexivity ].
  cbn [andb]. rewrite !(Z.lor_spec _ (Z.shiftl _ 24)). f_equal.
  rewrite !Z.shiftl_spec by lia.
  destruct (Z_lt_dec n 24) as [ Hlow | Hhigh ].
  - rewrite !Z.testbit_neg_r by lia. reflexivity.
  - apply Hs3. lia.
Qed.

(** Every build appends exactly four octets for an integer and keeps what
    the stream held, whatever [wxChar] is. *)
Theorem SaveIntToFile_appends_four (B : Build) (f : wxOutputStream) (i : Z) :
  exists written : list byte,
    SaveIntToFile B f i = f ++ written /\ length written = 4%nat.
Proof.
  exists (SaveIntToFile B [] i). split.
  - apply SaveIntToFile_frame.
  - apply SaveIntToFile_nil_length.
Qed.

(** On every build whose [wxChar] is one octet, signed or not, an integer
    whose three low octets are below 0x80 is loaded back. *)
Theorem int_round_trip_low_octets (B : Build) (i i0 : Z) (rest : list byte) :
  wxChar_size B = 1%positive -> Int.is_int i ->
  Z.testbit i 7 = false -> Z.testbit i 15 = false -> Z.testbit i 23 = false ->
  LoadIntFromFile B (input_of (SaveIntToFile B [] i ++ rest)) i0 =
  (true, i, SeekI (input_of (SaveIntToFile B [] i ++ rest)) 4).
Proof.
  intros Hs Hi H7 H15 H23.
  destruct (wxChar_signed B) eqn:Hsg.
  - assert (Hrem : remaining (input_of (SaveIntToFile B [] i ++ rest)) =
                   byte_of_Z i :: byte_of_Z (Z.shiftr i 8)
                   :: byte_of_Z (Z.shiftr i 16) :: byte_of_Z (Z.shiftr i 24) :: rest).
    { rewrite remaining_input_of, SaveIntToFile_char by exact Hs. reflexivity. }
    rewrite (LoadIntFromFile_four B _ i0 _ _ _ _ rest Hs Hrem).
    rewrite !wxChar_load_signed_char by assumption.
    assert (Hlow : forall z, Z.testbit z 7 = false ->
                     Int.to_signed 8 (Z_of_byte (byte_of_Z z)) = Z_of_byte (byte_of_Z z)).
    { intros z Hz. pose proof (Z_of_byte_range (byte_of_Z z)) as Hr.
      pose proof (octet_bit7 _ Hr) as Hb. rewrite octet_of_bit7, Hz in Hb.
      apply to_signed_small; [ lia | ]. change (2 ^ (8 - 1)) with 128.
      destruct (Z.ltb_spec (Z_of_byte (byte_of_Z z)) 128); [ lia | discriminate ]. }
    rewrite (Hlow i H7).
    rewrite (Hlow (Z.shiftr i 8)) by (rewrite Z.shiftr_spec by lia; exact H15).
    rewrite (Hlow (Z.shiftr i 16)) by (rewrite Z.shiftr_spec by lia; exact H23).
    f_equal. f_equal. apply to_int_congr; [ exact Hi | ].
    apply octets_combine_signed_top.
    intros n Hn. apply testbit_to_signed; lia.
  - apply LoadIntFromFile_SaveIntToFile; [ split; assumption | exact Hi ].
Qed.

Lemma int_round_trip_low_octets_witness :
  LoadIntFromFile ansi_x86 (input_of (SaveIntToFile ansi_x86 [] (-2147483521) ++ [])) 0 =
  (true, -2147483521,
   SeekI (input_of (SaveIntToFile ansi_x86 [] (-2147483521) ++ [])) 4).
Proof.
  apply (int_round_trip_low_octets ansi_x86 (-2147483521) 0 []).
  - reflexivity.
  - split; vm_compute; discriminate.
  - reflexivity.
  - reflexivity.
  - reflexivity.
Defined.

(** On every build whose [wxChar] is a signed octet, an integer whose low
    octet is 0x80 or more is loaded as that octet minus 256, whatever its
    other octets were. *)
Theorem LoadIntFromFile_low_octet_extended (B : Build) (i i0 : Z) (rest : list byte) :
  wxChar_size B = 1%positive -> wxChar_signed B = true ->
  Z.testbit i 7 = true ->
  LoadIntFromFile B (input_of (SaveIntToFile B [] i ++ rest)) i0 =
  (true, i mod 256 - 256,
   SeekI (input_of (SaveIntToFile B [] i ++ rest)) 4).
Proof.
  intros Hs Hsg H7.
  assert (Hrem : remaining (input_of (SaveIntToFile B [] i ++ rest)) =
                 byte_of_Z i :: byte_of_Z (Z.shiftr i 8)
                 :: byte_of_Z (Z.shiftr i 16) :: byte_of_Z (Z.shiftr i 24) :: rest).
  { rewrite remaining_input_of, SaveIntToFile_char by exact Hs. reflexivity. }
  rewrite (LoadIntFromFile_four B _ i0 _ _ _ _ rest Hs Hrem).
  rewrite !wxChar_load_signed_char by assumption.
  pose proof (Z_of_byte_range (byte_of_Z i)) as Hr.
  pose proof (octet_bit7 _ Hr) as Hb. rewrite octet_of_bit7, H7 in Hb.
  assert (Hhigh : 128 <= Z_of_byte (byte_of_Z i) < 256).
  { destruct (Z.ltb_spec (Z_of_byte (byte_of_Z i)) 128); [ discriminate | lia ]. }
  rewrite (to_signed_8_high _ Hhigh).
  rewrite Z_of_byte_of_Z in Hhigh |- *.
  set (s0 := i mod 256 - 256) in *.
  assert (Hones : forall n, 8 <= n -> Z.testbit s0 n = true).
  { intros n Hn. apply Z.bits_above_log2_neg; [ unfold s0; lia | ].
    assert (Z.log2 (Z.pred (- s0)) <= Z.log2 127)
      by (apply Z.log2_le_mono; unfold s0; lia).
    change (Z.log2 127) with 6 in *. lia. }
  f_equal. f_equal.
  match goal with
  | |- Int.to_int ?x = _ => replace x with s0
  end.
  - apply to_int_of_int. unfold Int.is_int, Int.min_int, Int.max_int, s0. lia.
  - apply Z.bits_inj'. intros n Hn.
    rewrite !Z.lor_spec, Z.shiftl_0_r.
    destruct (Z_lt_dec n 8) as [ Hlow | Hup ].
    + rewrite !Z.shiftl_spec_low by lia. rewrite !orb_false_r. reflexivity.
    + rewrite (Hones n) by lia. reflexivity.
Qed.

Lemma LoadIntFromFile_low_octet_extended_witness :
  LoadIntFromFile ansi_x86 (input_of (SaveIntToFile ansi_x86 [] 0x12B4 ++ [])) 0 =
  (true, 0x12B4 mod 256 - 256, SeekI (input_of (SaveIntToFile ansi_x86 [] 0x12B4 ++ [])) 4).
Proof.
  apply (LoadIntFromFile_low_octet_extended ansi_x86 0x12B4 0 []); reflexivity.
Defined.

(** ** String records *)

Lemma strlen_take (psz : list byte) (n : nat) :
  (n <= strlen psz)%nat ->
  strlen (take n psz) = n /\ length (take n psz) = n.
Proof.
  revert n. induction psz as [ | b rest IH ]; intros n Hn; simpl in Hn.
  - assert (n = 0%nat) as -> by lia. split; reflexivity.
  - destruct n as [ | n ]; [ split; reflexivity | ].
    destruct (is_nul b) eqn:Hb; [ lia | ].
    destruct (IH n ltac:(lia)) as [ Hs Hl ].
    simpl. rewrite Hb, Hs, Hl. split; reflexivity.
Qed.

Lemma strlen_no_nul (body : list byte) :
  strlen body = length body -> Forall (fun b => is_nul b = false) body.
Proof.
  induction body as [ | b rest IH ]; simpl; intros H; [ constructor | ].
  destruct (is_nul b) eqn:Hb; [ discriminate | ].
  constructor; [ exact Hb | apply IH; congruence ].
Qed.



Lemma land_24_bounds (size : Z) : 0 <= Z.land size 16777215 <= 16777215.
Proof.
  change 16777215 with (Z.ones 24) at 1 2. rewrite Z.land_ones by lia.
  pose proof (Z.mod_pos_bound size (2 ^ 24) ltac:(lia)). lia.
Qed.

Section StringRecords.
Variable B : Build.
Variable wxString : Type.
Variable mb_str : wxString -> option (list byte).
Variable wxString_of : list Z -> wxString.

(** What [SaveStringToFile] appends: the length of a body, then the body,
    which is the encoding cut at 32767 octets. *)
Lemma SaveStringToFile_layout (f : wxOutputStream) (str : wxString) (psz : list byte) :
  mb_str str = Some psz ->
  Z.of_nat (strlen psz) <= Int.max_int ->
  let body := take (Z.to_nat (Z.min (Z.of_nat (strlen psz)) 32767)) psz in
  SaveStringToFile B wxString mb_str f str
  = f ++ SaveIntToFile B [] (Z.of_nat (length body)) ++ body
  /\ Z.of_nat (length body) = Z.min (Z.of_nat (strlen psz)) 32767
  /\ strlen body = length body.
Proof.
  intros Hpsz Hint body.
  destruct (strlen_take psz (Z.to_nat (Z.min (Z.of_nat (strlen psz)) 32767))
              ltac:(lia)) as [ Hs Hl ].
  fold body in Hs, Hl.
  assert (Hlen : Z.of_nat (length body) = Z.min (Z.of_nat (strlen psz)) 32767)
    by (rewrite Hl; lia).
  repeat split; [ | exact Hlen | congruence ].
  rewrite (SaveStringToFile_size B wxString mb_str f str psz Hpsz Hint).
  cbv zeta. rewrite SaveIntToFile_frame, <- app_assoc, Hlen. reflexivity.
Qed.

(** The stream [LoadIntFromFile] leaves: same content, at most four octets
    further. *)
Lemma LoadIntFromFile_stream (f f1 : wxInputStream) (i v : Z) (loaded : bool) :
  LoadIntFromFile B f i = (loaded, v, f1) ->
  stream_data f1 = stream_data f
  /\ stream_pos f <= stream_pos f1 <= stream_pos f + 4.
Proof.
  intros H.
  destruct (le_lt_dec 4 (length (remaining f))) as [ Hfull | Hshort ].
  - rewrite LoadIntFromFile_full in H by exact Hfull.
    injection H as _ _ <-. simpl. split; [ reflexivity | lia ].
  - rewrite LoadIntFromFile_short in H by exact Hshort.
    injection H as _ _ <-. unfold Read. simpl.
    split; [ reflexivity | ]. rewrite length_take. lia.
Qed.

End StringRecords.


(** [SaveStringToFile] keeps what the stream held and appends one record: a
    length and that many octets, none of them zero.  The length is the
    encoding's, capped at 32767, so a record has at most 32771 octets, and
    the length written is always the number of octets that follow it. *)
Theorem SaveStringToFile_record (B : Build) (wxString : Type)
    (mb_str : wxString -> option (list byte))
    (f : wxOutputStream) (str : wxString) (psz : list byte) :
  mb_str str = Some psz ->
  Z.of_nat (strlen psz) <= Int.max_int ->
  exists body : list byte,
    SaveStringToFile B wxString mb_str f str
    = f ++ SaveIntToFile B [] (Z.of_nat (length body)) ++ body
    /\ Z.of_nat (length body) = Z.min (Z.of_nat (strlen psz)) 32767
    /\ Forall (fun b => is_nul b = false) body
    /\ Z.of_nat (length (SaveStringToFile B wxString mb_str f str))
       = Z.of_nat (length f) + 4 + Z.of_nat (length body)
    /\ Z.of_nat (length (SaveStringToFile B wxString mb_str f str))
       <= Z.of_nat (length f) + 32771.
Proof.
  intros Hpsz Hint.
  destruct (SaveStringToFile_layout B wxString mb_str f str psz Hpsz Hint)
    as (Hsave & Hlen & Hbody).
  cbv zeta in Hsave, Hlen, Hbody.
  set (body := take _ psz) in *. exists body.
  assert (Htotal : Z.of_nat (length (SaveStringToFile B wxString mb_str f str))
                   = Z.of_nat (length f) + 4 + Z.of_nat (length body)).
  { rewrite Hsave, !length_app, SaveIntToFile_nil_length. lia. }
  repeat split; try assumption.
  - apply strlen_no_nul. exact Hbody.
  - rewrite Htotal. lia.
Qed.

Lemma SaveStringToFile_record_witness :
  exists body : list byte,
    save_octets ansi_x86 [Byte.x2a] name_40000
    = [Byte.x2a] ++ SaveIntToFile ansi_x86 [] (Z.of_nat (length body)) ++ body
    /\ Z.of_nat (length body) = Z.min (Z.of_nat (strlen name_40000)) 32767
    /\ Forall (fun b => is_nul b = false) body
    /\ Z.of_nat (length (save_octets ansi_x86 [Byte.x2a] name_40000))
       = Z.of_nat (length [Byte.x2a]) + 4 + Z.of_nat (length body)
    /\ Z.of_nat (length (save_octets ansi_x86 [Byte.x2a] name_40000))
       <= Z.of_nat (length [Byte.x2a]) + 32771.
Proof.
  apply (SaveStringToFile_record ansi_x86 octet_string octet_mb_str [Byte.x2a]
           name_40000 name_40000).
  - reflexivity.
  - vm_compute. discriminate.
Defined.

(** [LoadStringFromFile] returns true exactly when the length could be read
    and, if the length is one it reads a body for, the stream still held
    that many octets.  A length out of range never makes it return false,
    and when the length itself is missing the string is left as it was. *)
Theorem LoadStringFromFile_flag (B : Build) (wxString : Type)
    (wxString_of : list Z -> wxString) (f : wxInputStream) (str : wxString) :
  exists (ok : bool) (s : wxString) (f' : wxInputStream),
    LoadStringFromFile B wxString wxString_of f str = Some (ok, s, f')
    /\ (ok = true <->
        exists (size : Z) (f1 : wxInputStream),
          LoadIntFromFile B f 0 = (true, size, f1)
          /\ (0 < size <= 32767 -> size <= Z.of_nat (length (remaining f1))))
    /\ ((length (remaining f) < 4)%nat -> ok = false /\ s = str).
Proof.
  destruct (le_lt_dec 4 (length (remaining f))) as [ Hfull | Hshort ].
  - pose proof (LoadIntFromFile_full B f 0 Hfull) as Hint. cbv zeta in Hint.
    set (size := Int.to_int _) in Hint.
    destruct (Z_lt_dec 0 size) as [ Hpos | Hneg ];
      [ destruct (Z_le_dec size 32767) as [ Hle | Hgt ] | ].
    + rewrite (LoadStringFromFile_read B wxString wxString_of _ _ _ _ Hint) by lia.
      rewrite read_into_buf_in_bounds by lia.
      do 3 eexists. split; [ reflexivity | ].
      rewrite Read_length. split; [ | lia ].
      rewrite Nat.eqb_eq. split.
      * intros Hall. exists size, (SeekI f 4). split; [ exact Hint | ]. lia.
      * intros (size' & f1 & Hint' & Hbody).
        rewrite Hint in Hint'. injection Hint' as <- <-.
        specialize (Hbody ltac:(lia)). lia.
    + rewrite (LoadStringFromFile_skip B wxString wxString_of _ _ _ _ Hint) by lia.
      do 3 eexists. split; [ reflexivity | ]. split; [ | lia ].
      split; [ | reflexivity ].
      intros _. exists size, (SeekI f 4). split; [ exact Hint | lia ].
    + rewrite (LoadStringFromFile_skip B wxString wxString_of _ _ _ _ Hint) by lia.
      do 3 eexists. split; [ reflexivity | ]. split; [ | lia ].
      split; [ | reflexivity ].
      intros _. exists size, (SeekI f 4). split; [ exact Hint | lia ].
  - rewrite LoadStringFromFile_fail by exact Hshort.
    do 3 eexists. split; [ reflexivity | ]. split.
    + split; [ discriminate | ].
      intros (size & f1 & Hint & _).
      rewrite LoadIntFromFile_short in Hint by exact Hshort. discriminate.
    + intros _. split; reflexivity.
Qed.

(** [LoadStringFromFile] never changes the content of the stream and never
    moves it backwards; whatever length it reads, it moves at most
    4 + 16777215 octets forward. *)
Theorem LoadStringFromFile_progress (B : Build) (wxString : Type)
    (wxString_of : list Z -> wxString) (f : wxInputStream) (str : wxString) :
  exists (ok : bool) (s : wxString) (f' : wxInputStream),
    LoadStringFromFile B wxString wxString_of f str = Some (ok, s, f')
    /\ stream_data f' = stream_data f
    /\ stream_pos f <= stream_pos f' <= stream_pos f + 4 + 16777215.
Proof.
  destruct (LoadIntFromFile B f 0) as [[loaded size] f1] eqn:Hint.
  destruct (LoadIntFromFile_stream B f f1 0 size loaded Hint) as [ Hdata Hpos ].
  destruct loaded.
  - destruct (Z_lt_dec 0 size) as [ Hpos' | Hneg ];
      [ destruct (Z_le_dec size 32767) as [ Hle | Hgt ] | ].
    + rewrite (LoadStringFromFile_read B wxString wxString_of _ _ _ _ Hint) by lia.
      rewrite read_into_buf_in_bounds by lia.
      do 3 eexists. split; [ reflexivity | ].
      unfold Read. simpl. rewrite length_take. split; [ exact Hdata | lia ].
    + rewrite (LoadStringFromFile_skip B wxString wxString_of _ _ _ _ Hint) by lia.
      do 3 eexists. split; [ reflexivity | ].
      pose proof (land_24_bounds size). simpl. split; [ exact Hdata | lia ].
    + rewrite (LoadStringFromFile_skip B wxString wxString_of _ _ _ _ Hint) by lia.
      do 3 eexists. split; [ reflexivity | ].
      pose proof (land_24_bounds size). simpl. split; [ exact Hdata | lia ].
  - unfold LoadStringFromFile. rewrite Hint. simpl.
    do 3 eexists. split; [ reflexivity | ]. split; [ exact Hdata | lia ].
Qed.






(** * Kind masks as parameters *)

Lemma lor_below (n a b : Z) :
  0 <= n -> 0 <= a < 2 ^ n -> 0 <= b < 2 ^ n -> 0 <= Z.lor a b < 2 ^ n.
Proof.
  intros Hn Ha Hb.
  assert (Hnonneg : 0 <= Z.lor a b) by (apply Z.lor_nonneg; lia).
  split; [ exact Hnonneg | ].
  destruct (Z.eq_dec (Z.lor a b) 0) as [ -> | Hnz ]; [ lia | ].
  apply Z.log2_lt_pow2; [ lia | ].
  rewrite Z.log2_lor by lia.
  destruct (Z.eq_dec a 0) as [ -> | Ha0 ], (Z.eq_dec b 0) as [ -> | Hb0 ].
  - rewrite Z.lor_0_l in Hnz. contradiction.
  - rewrite Z.max_r by (apply Z.log2_nonneg). apply Z.log2_lt_pow2; lia.
  - rewrite Z.max_l by (apply Z.log2_nonneg). apply Z.log2_lt_pow2; lia.
  - apply Z.max_lub_lt; apply Z.log2_lt_pow2; lia.
Qed.

Lemma kinds_union_below (ks : list Z) :
  Forall (fun k => k ∈ token_kinds) ks -> 0 <= kinds_union ks < 2 ^ 11.
Proof.
  induction 1 as [ | k ks Hk _ IH ]; simpl; [ lia | ].
  apply lor_below; [ lia | | exact IH ].
  unfold token_kinds in Hk.
  repeat (apply elem_of_cons in Hk as [ -> | Hk ]); try (vm_compute; split; congruence).
  apply elem_of_nil in Hk. contradiction.
Qed.

(** A mask passed as [short int] is the mask that was written, when it is a
    union of kinds; [tkUndefined] does not fit a [short int] and becomes -1,
    the default of [FindMatches], which still has every bit of any kind or
    mask. *)
Theorem kindMask_as_short :
  (forall ks : list Z,
      Forall (fun k => k ∈ token_kinds) ks -> to_short (kinds_union ks) = kinds_union ks)
  /\ to_short tkAnyContainer = tkAnyContainer
  /\ to_short tkAnyFunction = tkAnyFunction
  /\ FindMatches_kindMask_default = -1
  /\ (forall x : Z, Z.land x FindMatches_kindMask_default = x).
Proof.
  split; [ | repeat split ].
  - intros ks Hks. pose proof (kinds_union_below ks Hks) as Hb.
    unfold to_short. apply to_signed_small; [ lia | ].
    change (2 ^ (16 - 1)) with 32768. change (2 ^ 11) with 2048 in Hb. lia.
  - intros x. change FindMatches_kindMask_default with (-1).
    apply Z.land_m1_r.
Qed.

(** * The profiling harness *)

Section ProfileTimerFacts.
Variable wxStopWatch : Type.
Variable Start Pause Resume : wxStopWatch -> wxStopWatch.
Variable size_bits : Z.

Lemma to_size_t_small (x : Z) :
  0 <= x < 2 ^ size_bits -> to_size_t size_bits x = x.
Proof. intros Hx. unfold to_size_t. apply Z.mod_small. exact Hx. Qed.

Lemma to_size_t_add (x y : Z) :
  to_size_t size_bits (to_size_t size_bits x + y) = to_size_t size_bits (x + y).
Proof.
  unfold to_size_t.
  destruct (Z.eq_dec (2 ^ size_bits) 0) as [ E | E ].
  - rewrite E, !Z.mod_0_r. reflexivity.
  - apply Z.add_mod_idemp_l. exact E.
Qed.

(** A run that starts with [count] helpers alive: the stop watch is touched
    only when [count] is zero, once per outermost activation. *)
Lemma run_from (w : activations) :
  forall d : ProfileTimerData wxStopWatch,
    0 <= m_Count _ d ->
    m_Count _ d + Z.of_nat (depth w) < 2 ^ size_bits ->
    run wxStopWatch Pause Resume size_bits w d =
    {| m_StopWatch :=
         if m_Count _ d =? 0
         then Nat.iter (outermost w) (fun sw => Pause (Resume sw)) (m_StopWatch _ d)
         else m_StopWatch _ d;
       m_CallTimes :=
         match w with
         | Idle => m_CallTimes _ d
         | _ => to_size_t size_bits (m_CallTimes _ d + Z.of_nat (calls w))
         end;
       m_Count := m_Count _ d |}.
Proof.
  induction w as [ | inner IHinner next IHnext ]; intros d Hc Hdepth.
  - destruct d as [sw ct c]. cbn. destruct (c =? 0); reflexivity.
  - cbn [run].
    simpl depth in Hdepth.
    set (d1 := CC_PROFILE_TIMER wxStopWatch Resume size_bits d).
    assert (Hc1 : m_Count _ d1 = m_Count _ d + 1).
    { unfold d1, CC_PROFILE_TIMER, ProfileTimerHelper_enter. cbn.
      apply to_size_t_small. lia. }
    rewrite (IHinner d1) by lia.
    rewrite Hc1.
    replace (m_Count _ d + 1 =? 0) with false by (symmetry; apply Z.eqb_neq; lia).
    set (d2 := ProfileTimerHelper_leave _ _ _ _).
    assert (Hc2 : m_Count _ d2 = m_Count _ d).
    { unfold d2, ProfileTimerHelper_leave. cbn.
      replace (m_Count _ d + 1 - 1) with (m_Count _ d) by lia.
      apply to_size_t_small. lia. }
    rewrite (IHnext d2) by lia.
    rewrite Hc2. f_equal.
    + unfold d2, ProfileTimerHelper_leave. cbn [m_StopWatch m_Count].
      replace (m_Count _ d + 1 - 1) with (m_Count _ d) by lia.
      rewrite to_size_t_small by lia.
      unfold d1, CC_PROFILE_TIMER, ProfileTimerHelper_enter. cbn [m_StopWatch m_Count].
      destruct (m_Count _ d =? 0); [ | reflexivity ].
      cbn [outermost]. symmetry.
      exact (Nat.iter_succ_r (outermost next) (fun sw => Pause (Resume sw)) _).
    + assert (Hct : m_CallTimes _ d2
                    = to_size_t size_bits (m_CallTimes _ d + 1 + Z.of_nat (calls inner))).
      { unfold d2, ProfileTimerHelper_leave. cbn [m_CallTimes].
        unfold d1, CC_PROFILE_TIMER, ProfileTimerHelper_enter. cbn [m_CallTimes].
        destruct inner.
        - cbn [calls]. f_equal. lia.
        - apply to_size_t_add. }
      rewrite Hct. cbn [calls].
      destruct next.
      * cbn [calls]. f_equal. lia.
      * rewrite to_size_t_add. f_equal. lia.
Qed.
End ProfileTimerFacts.

Section ProfileTimerRuns.
Variable wxStopWatch : Type.
Variable Start Pause Resume : wxStopWatch -> wxStopWatch.
Variable size_bits : Z.

(** With the counter wrapped to its largest value, activations that follow
    one another leave the stop watch alone. *)
Lemma run_flat_wrapped (n : nat) :
  forall d : ProfileTimerData wxStopWatch,
    0 < size_bits ->
    m_Count _ d = 2 ^ size_bits - 1 ->
    m_StopWatch _ (run wxStopWatch Pause Resume size_bits (flat n) d) = m_StopWatch _ d
    /\ m_Count _ (run wxStopWatch Pause Resume size_bits (flat n) d) = 2 ^ size_bits - 1.
Proof.
  induction n as [ | n IH ]; intros d Hbits Hc; [ split; [ reflexivity | exact Hc ] | ].
  assert (Hpow : 2 <= 2 ^ size_bits).
  { change 2 with (2 ^ 1) at 1. apply Z.pow_le_mono_r; lia. }
  cbn [flat run].
  set (d2 := ProfileTimerHelper_leave _ _ _ _).
  assert (Hd2 : m_StopWatch _ d2 = m_StopWatch _ d /\ m_Count _ d2 = 2 ^ size_bits - 1).
  { unfold d2, ProfileTimerHelper_leave, CC_PROFILE_TIMER, ProfileTimerHelper_enter.
    cbn [m_StopWatch m_Count]. rewrite Hc.
    replace (2 ^ size_bits - 1 + 1) with (2 ^ size_bits) by lia.
    unfold to_size_t. rewrite Z.mod_same by lia.
    replace ((0 - 1) mod 2 ^ size_bits) with (2 ^ size_bits - 1)
      by (apply (Z.mod_unique (0 - 1) (2 ^ size_bits) (-1)); lia).
    replace (2 ^ size_bits - 1 =? 0) with false by (symmetry; apply Z.eqb_neq; lia).
    split; reflexivity. }
  destruct Hd2 as [ Hsw Hcount ].
  destruct (IH d2 Hbits Hcount) as [ IHsw IHcount ].
  split; [ rewrite IHsw; exact Hsw | exact IHcount ].
Qed.

(** When nothing is active, a run of activations, however they nest,
    resumes and pauses the stop watch once for each outermost activation and
    never in between, adds one to the call counter for every activation, and
    leaves no helper counted.  The nesting must stay below the range of
    [size_t]. *)
Theorem profiled_run_from_idle (w : activations) (d : ProfileTimerData wxStopWatch) :
  m_Count _ d = 0 ->
  0 <= m_CallTimes _ d < 2 ^ size_bits ->
  Z.of_nat (depth w) < 2 ^ size_bits ->
  run wxStopWatch Pause Resume size_bits w d =
  {| m_StopWatch :=
       Nat.iter (outermost w) (fun sw => Pause (Resume sw)) (m_StopWatch _ d);
     m_CallTimes := to_size_t size_bits (m_CallTimes _ d + Z.of_nat (calls w));
     m_Count := 0 |}.
Proof.
  intros Hc Hct Hdepth.
  rewrite (run_from wxStopWatch Pause Resume size_bits w d) by lia.
  rewrite Hc. cbn [Z.eqb]. f_equal.
  destruct w; [ | reflexivity ].
  cbn [calls]. change (Z.of_nat 0) with 0. rewrite Z.add_0_r.
  rewrite to_size_t_small by lia. reflexivity.
Qed.

(** While a helper is alive, the activations nested in it change neither
    the stop watch nor the number of helpers counted. *)
Theorem profiled_run_nested (w : activations) (d : ProfileTimerData wxStopWatch) :
  0 < m_Count _ d ->
  m_Count _ d + Z.of_nat (depth w) < 2 ^ size_bits ->
  m_StopWatch _ (run wxStopWatch Pause Resume size_bits w d) = m_StopWatch _ d
  /\ m_Count _ (run wxStopWatch Pause Resume size_bits w d) = m_Count _ d.
Proof.
  intros Hc Hdepth.
  rewrite (run_from wxStopWatch Pause Resume size_bits w d) by lia.
  cbn [m_StopWatch m_Count].
  replace (m_Count _ d =? 0) with false by (symmetry; apply Z.eqb_neq; lia).
  split; reflexivity.
Qed.

(** [Zero] while a helper is alive: the helper's destructor takes the counter
    from 0 to the largest [size_t], so it does not pause the stop watch, and
    from then on activations that follow one another are no longer timed:
    the stop watch stays as [Zero] left it. *)
Theorem Zero_while_active (d : ProfileTimerData wxStopWatch) (n : nat) :
  0 < size_bits ->
  let d' := ProfileTimerHelper_leave wxStopWatch Pause size_bits
              (Zero wxStopWatch Start Pause d) in
  m_Count _ d' = 2 ^ size_bits - 1
  /\ m_StopWatch _ d' = Pause (Start (m_StopWatch _ d))
  /\ m_StopWatch _ (run wxStopWatch Pause Resume size_bits (flat n) d')
     = Pause (Start (m_StopWatch _ d))
  /\ m_Count _ (run wxStopWatch Pause Resume size_bits (flat n) d')
     = 2 ^ size_bits - 1.
Proof.
  intros Hbits d'.
  assert (Hpow : 2 <= 2 ^ size_bits).
  { change 2 with (2 ^ 1) at 1. apply Z.pow_le_mono_r; lia. }
  assert (Hd' : m_Count _ d' = 2 ^ size_bits - 1
                /\ m_StopWatch _ d' = Pause (Start (m_StopWatch _ d))).
  { unfold d', ProfileTimerHelper_leave, Zero. cbn [m_StopWatch m_Count].
    unfold to_size_t.
    replace ((0 - 1) mod 2 ^ size_bits) with (2 ^ size_bits - 1)
      by (apply (Z.mod_unique (0 - 1) (2 ^ size_bits) (-1)); lia).
    replace (2 ^ size_bits - 1 =? 0) with false by (symmetry; apply Z.eqb_neq; lia).
    split; reflexivity. }
  destruct Hd' as [ Hcount Hsw ].
  destruct (run_flat_wrapped n d' Hbits Hcount) as [ Hrun_sw Hrun_count ].
  repeat split; try assumption. rewrite Hrun_sw. exact Hsw.
Qed.
End ProfileTimerRuns.

(** The numbers [Log] prints add up to the time, and for a time that is not
    negative the seconds are below 60 and the milliseconds below 1000. *)
Theorem Log_times_sum (totalTime : Z) :
  let '(minutes, seconds, millis) := Log_times totalTime in
  totalTime = 60000 * minutes + 1000 * seconds + millis
  /\ (0 <= totalTime ->
      0 <= minutes /\ 0 <= seconds < 60 /\ 0 <= millis < 1000).
Proof.
  unfold Log_times. split.
  - pose proof (Z.quot_rem' totalTime 1000) as H1.
    pose proof (Z.quot_rem' (Z.quot totalTime 1000) 60) as H2.
    rewrite Z.quot_quot in H2 by lia. change (1000 * 60) with 60000 in H2. lia.
  - intros Hpos.
    assert (0 <= Z.quot totalTime 1000) by (apply Z.quot_pos; lia).
    pose proof (Z.rem_bound_pos (Z.quot totalTime 1000) 60 ltac:(lia) ltac:(lia)).
    pose proof (Z.rem_bound_pos totalTime 1000 ltac:(lia) ltac:(lia)).
    assert (0 <= Z.quot totalTime 60000) by (apply Z.quot_pos; lia).
    lia.
Qed.

Section ProfileLogFacts.
Variable wxStopWatch : Type.
Variable Start Pause : wxStopWatch -> wxStopWatch.
Variable Time : wxStopWatch -> Z.
Variable funcName : Type.

Lemma Log_loop_spec (es : list (Z * funcName)) :
  forall timers : gmap Z (ProfileTimerData wxStopWatch),
    NoDup es.*1 ->
    (forall p, p ∈ es -> is_Some (timers !! p.1)) ->
    exists lines timers',
      Log_loop wxStopWatch Start Pause Time funcName es timers = Some (lines, timers')
      /\ length lines = length es
      /\ (forall ptd name d,
            (ptd, name) ∈ es -> timers !! ptd = Some d ->
            fst (Log_entry wxStopWatch Start Pause Time funcName name d) ∈ lines
            /\ timers' !! ptd = Some (Zero wxStopWatch Start Pause d))
      /\ (forall ptd, ptd ∉ es.*1 -> timers' !! ptd = timers !! ptd).
Proof.
  induction es as [ | [ptd0 name0] rest IH ]; intros timers Hnodup Hlive.
  - exists [], timers. split; [ reflexivity | ]. split; [ reflexivity | ]. split.
    + intros ptd name d Hin. apply elem_of_nil in Hin. contradiction.
    + intros ptd _. reflexivity.
  - cbn [fmap list_fmap fst] in Hnodup. apply NoDup_cons in Hnodup as [ Hfresh Hnodup ].
    destruct (Hlive (ptd0, name0) ltac:(left)) as [ d0 Hd0 ]. cbn [fst] in Hd0.
    cbn [Log_loop]. rewrite Hd0. cbn [Log_entry snd fst].
    destruct (IH (<[ ptd0 := Zero wxStopWatch Start Pause d0 ]> timers) Hnodup)
      as (lines & timers' & Hloop & Hlen & Hin & Hout).
    { intros p Hp. destruct (decide (p.1 = ptd0)) as [ -> | Hne ].
      - rewrite lookup_insert_eq. eexists; reflexivity.
      - rewrite lookup_insert_ne by congruence. apply Hlive. right. exact Hp. }
    rewrite Hloop. do 2 eexists. split; [ reflexivity | ].
    split; [ cbn; rewrite Hlen; reflexivity | ]. split.
    + intros ptd name d Hmem Hd.
      apply elem_of_cons in Hmem as [ Heq | Hmem ].
      * injection Heq as Hp Hn. subst ptd name.
        rewrite Hd0 in Hd. injection Hd as <-.
        split; [ left | ].
        rewrite (Hout ptd0 Hfresh). apply lookup_insert_eq.
      * assert (Hne : ptd0 <> ptd).
        { intros ->. apply Hfresh. apply list_elem_of_fmap.
          exists (ptd, name). split; [ reflexivity | exact Hmem ]. }
        destruct (Hin ptd name d Hmem) as [ Hline Hzero ].
        { rewrite lookup_insert_ne by exact Hne. exact Hd. }
        split; [ right; exact Hline | exact Hzero ].
    + intros ptd Hnot. cbn [fmap list_fmap fst] in Hnot.
      apply not_elem_of_cons in Hnot as [ Hne Hnot ].
      rewrite (Hout ptd Hnot). apply lookup_insert_ne. congruence.
Qed.

Lemma entries_Permutation (m : gmap Z funcName) :
  entries funcName m ≡ₚ map_to_list m.
Proof. unfold entries. apply merge_sort_Permutation. Qed.

(** [Log] on a map whose entries all point to timers. *)
Lemma Log_spec (m : gmap Z funcName) (timers : gmap Z (ProfileTimerData wxStopWatch)) :
  (forall ptd, is_Some (m !! ptd) -> is_Some (timers !! ptd)) ->
  exists lines timers',
    Log wxStopWatch Start Pause Time funcName m timers = Some (lines, timers')
    /\ length lines = size m
    /\ (forall ptd name d,
          m !! ptd = Some name -> timers !! ptd = Some d ->
          fst (Log_entry wxStopWatch Start Pause Time funcName name d) ∈ lines
          /\ timers' !! ptd = Some (Zero wxStopWatch Start Pause d))
    /\ (forall ptd, m !! ptd = None -> timers' !! ptd = timers !! ptd).
Proof.
  intros Hlive. pose proof (entries_Permutation m) as Hperm.
  destruct (Log_loop_spec (entries funcName m) timers)
    as (lines & timers' & Hloop & Hlen & Hin & Hout).
  - rewrite Hperm. apply NoDup_fst_map_to_list.
  - intros [ptd name] Hp. rewrite Hperm in Hp.
    apply elem_of_map_to_list in Hp. apply Hlive. eexists; exact Hp.
  - exists lines, timers'. split; [ exact Hloop | ]. split; [ | split ].
    + rewrite Hlen, Hperm. apply length_map_to_list.
    + intros ptd name d Hm Hd. apply Hin; [ | exact Hd ].
      rewrite Hperm. apply elem_of_map_to_list. exact Hm.
    + intros ptd Hm. apply Hout. intros Hmem.
      apply list_elem_of_fmap in Hmem as ([ptd' name] & -> & Hp).
      rewrite Hperm in Hp. apply elem_of_map_to_list in Hp.
      cbn in Hm. congruence.
Qed.
End ProfileLogFacts.

Lemma profiled_run_from_idle_witness :
  run recorded record_Pause record_Resume 64 sample_run sample_timer =
  {| m_StopWatch :=
       Nat.iter (outermost sample_run) (fun sw => record_Pause (record_Resume sw))
         (m_StopWatch _ sample_timer);
     m_CallTimes := to_size_t 64 (m_CallTimes _ sample_timer + Z.of_nat (calls sample_run));
     m_Count := 0 |}.
Proof.
  apply (profiled_run_from_idle recorded record_Pause record_Resume 64
           sample_run sample_timer).
  - reflexivity.
  - split; vm_compute; [ discriminate | reflexivity ].
  - vm_compute. reflexivity.
Defined.

Lemma profiled_run_nested_witness :
  m_StopWatch _ (run recorded record_Pause record_Resume 64 sample_run
                   (CC_PROFILE_TIMER recorded record_Resume 64 sample_timer))
  = m_StopWatch _ (CC_PROFILE_TIMER recorded record_Resume 64 sample_timer)
  /\ m_Count _ (run recorded record_Pause record_Resume 64 sample_run
                  (CC_PROFILE_TIMER recorded record_Resume 64 sample_timer))
     = m_Count _ (CC_PROFILE_TIMER recorded record_Resume 64 sample_timer).
Proof.
  apply (profiled_run_nested recorded record_Pause record_Resume 64 sample_run
           (CC_PROFILE_TIMER recorded record_Resume 64 sample_timer)).
  - vm_compute. reflexivity.
  - vm_compute. reflexivity.
Defined.

Lemma Zero_while_active_witness :
  let d' := ProfileTimerHelper_leave recorded record_Pause 64
              (Zero recorded record_Start record_Pause
                 (CC_PROFILE_TIMER recorded record_Resume 64 sample_timer)) in
  m_Count _ d' = 2 ^ 64 - 1
  /\ m_StopWatch _ d'
     = record_Pause (record_Start
         (m_StopWatch _ (CC_PROFILE_TIMER recorded record_Resume 64 sample_timer)))
  /\ m_StopWatch _ (run recorded record_Pause record_Resume 64 (flat 3) d')
     = record_Pause (record_Start
         (m_StopWatch _ (CC_PROFILE_TIMER recorded record_Resume 64 sample_timer)))
  /\ m_Count _ (run recorded record_Pause record_Resume 64 (flat 3) d') = 2 ^ 64 - 1.
Proof.
  apply (Zero_while_active recorded record_Start record_Pause record_Resume 64
           (CC_PROFILE_TIMER recorded record_Resume 64 sample_timer) 3).
  reflexivity.
Defined.

(** [Log] formats one line for every timer in the map, carrying the
    timer's call counter, and leaves exactly those timers as [Zero] makes
    them; a timer that is not in the map is not touched.  Every entry of the
    map must point to a timer. *)
Theorem Log_reports_and_resets (wxStopWatch : Type)
    (Start Pause : wxStopWatch -> wxStopWatch) (Time : wxStopWatch -> Z)
    (funcName : Type) (m : gmap Z funcName)
    (timers : gmap Z (ProfileTimerData wxStopWatch)) :
  (forall ptd, is_Some (m !! ptd) -> is_Some (timers !! ptd)) ->
  exists lines timers',
    Log wxStopWatch Start Pause Time funcName m timers = Some (lines, timers')
    /\ length lines = size m
    /\ (forall ptd name d,
          m !! ptd = Some name -> timers !! ptd = Some d ->
          fst (Log_entry wxStopWatch Start Pause Time funcName name d) ∈ lines
          /\ line_calls _ (fst (Log_entry wxStopWatch Start Pause Time funcName name d))
             = m_CallTimes _ d
          /\ timers' !! ptd = Some (Zero wxStopWatch Start Pause d))
    /\ (forall ptd, m !! ptd = None -> timers' !! ptd = timers !! ptd).
Proof.
  intros Hlive.
  destruct (Log_spec wxStopWatch Start Pause Time funcName m timers Hlive)
    as (lines & timers' & Hlog & Hlen & Hin & Hout).
  exists lines, timers'. split; [ exact Hlog | ]. split; [ exact Hlen | ].
  split; [ | exact Hout ].
  intros ptd name d Hm Hd. destruct (Hin ptd name d Hm Hd) as [ Hline Hzero ].
  split; [ exact Hline | ]. split; [ reflexivity | exact Hzero ].
Qed.

Lemma Log_reports_and_resets_witness :
  exists lines timers',
    Log recorded record_Start record_Pause recorded_Time octet_string
      {[ 4096 := name_128 ]}
      {[ 4096 := run recorded record_Pause record_Resume 64 sample_run sample_timer ]}
    = Some (lines, timers')
    /\ length lines = size ({[ 4096 := name_128 ]} : gmap Z octet_string)
    /\ (forall ptd name d,
          ({[ 4096 := name_128 ]} : gmap Z octet_string) !! ptd = Some name ->
          ({[ 4096 := run recorded record_Pause record_Resume 64 sample_run sample_timer ]}
             : gmap Z (ProfileTimerData recorded)) !! ptd = Some d ->
          fst (Log_entry recorded record_Start record_Pause recorded_Time octet_string
                 name d) ∈ lines
          /\ line_calls _ (fst (Log_entry recorded record_Start record_Pause recorded_Time
                                  octet_string name d))
             = m_CallTimes _ d
          /\ timers' !! ptd = Some (Zero recorded record_Start record_Pause d))
    /\ (forall ptd, ({[ 4096 := name_128 ]} : gmap Z octet_string) !! ptd = None ->
                    timers' !! ptd
                    = ({[ 4096 := run recorded record_Pause record_Resume 64 sample_run
                                    sample_timer ]}
                         : gmap Z (ProfileTimerData recorded)) !! ptd).
Proof.
  apply (Log_reports_and_resets recorded record_Start record_Pause recorded_Time
           octet_string).
  intros ptd [ name Hname ].
  apply lookup_singleton_Some in Hname as [ <- _ ].
  rewrite lookup_singleton_eq. eexists. reflexivity.
Defined.

(** A timer registered with [Registry], which returns 1, is reported by the
    next [Log] under the name given last and is then reset; registering an
    address again adds no line. *)
Theorem Registry_then_Log (wxStopWatch : Type)
    (Start Pause : wxStopWatch -> wxStopWatch) (Time : wxStopWatch -> Z)
    (funcName : Type) (m : gmap Z funcName)
    (timers : gmap Z (ProfileTimerData wxStopWatch))
    (ptd : Z) (name : funcName) (d : ProfileTimerData wxStopWatch) :
  timers !! ptd = Some d ->
  (forall q, is_Some (m !! q) -> is_Some (timers !! q)) ->
  snd (Registry funcName m ptd name) = 1
  /\ exists lines timers',
       Log wxStopWatch Start Pause Time funcName (fst (Registry funcName m ptd name)) timers
       = Some (lines, timers')
       /\ fst (Log_entry wxStopWatch Start Pause Time funcName name d) ∈ lines
       /\ timers' !! ptd = Some (Zero wxStopWatch Start Pause d)
       /\ length lines = match m !! ptd with
                         | Some _ => size m
                         | None => S (size m)
                         end.
Proof.
  intros Hd Hlive. split; [ reflexivity | ].
  unfold Registry. cbn [fst].
  destruct (Log_spec wxStopWatch Start Pause Time funcName (<[ ptd := name ]> m) timers)
    as (lines & timers' & Hlog & Hlen & Hin & _).
  { intros q Hq. destruct (decide (q = ptd)) as [ -> | Hne ].
    - eexists. exact Hd.
    - rewrite lookup_insert_ne in Hq by congruence. apply Hlive. exact Hq. }
  exists lines, timers'. split; [ exact Hlog | ].
  destruct (Hin ptd name d (lookup_insert_eq _ _ _) Hd) as [ Hline Hzero ].
  split; [ exact Hline | ]. split; [ exact Hzero | ].
  rewrite Hlen, map_size_insert. destruct (m !! ptd); reflexivity.
Qed.

Lemma Registry_then_Log_witness :
  snd (Registry octet_string ∅ 4096 name_128) = 1
  /\ exists lines timers',
       Log recorded record_Start record_Pause recorded_Time octet_string
         (fst (Registry octet_string ∅ 4096 name_128)) {[ 4096 := sample_timer ]}
       = Some (lines, timers')
       /\ fst (Log_entry recorded record_Start record_Pause recorded_Time octet_string
                 name_128 sample_timer) ∈ lines
       /\ timers' !! 4096 = Some (Zero recorded record_Start record_Pause sample_timer)
       /\ length lines = match (∅ : gmap Z octet_string) !! 4096 with
                         | Some _ => size (∅ : gmap Z octet_string)
                         | None => S (size (∅ : gmap Z octet_string))
                         end.
Proof.
  apply (Registry_then_Log recorded record_Start record_Pause recorded_Time
           octet_string ∅ {[ 4096 := sample_timer ]} 4096 name_128 sample_timer).
  - apply lookup_singleton_eq.
  - intros q [ x Hx ]. rewrite lookup_empty in Hx. discriminate.
Defined.

(** * The string record, octet by octet *)

Lemma strlen_all (psz : list byte) :
  Forall (fun b => is_nul b = false) psz -> strlen psz = length psz.
Proof.
  induction 1 as [ | b rest Hb _ IH ]; simpl; [ reflexivity | ].
  rewrite Hb, IH. reflexivity.
Qed.

(** What [SaveStringToFile] writes where [wxChar] is one octet, for an
    encoding without a zero octet. *)
Lemma SaveStringToFile_octets (B : Build) (wxString : Type)
    (mb_str : wxString -> option (list byte))
    (f : wxOutputStream) (str : wxString) (psz : list byte) :
  wxChar_size B = 1%positive ->
  mb_str str = Some psz ->
  Forall (fun b => is_nul b = false) psz ->
  Z.of_nat (length psz) <= Int.max_int ->
  let size := Z.min (Z.of_nat (length psz)) 32767 in
  SaveStringToFile B wxString mb_str f str
  = f ++ [ byte_of_Z size; byte_of_Z (Z.shiftr size 8);
           byte_of_Z (Z.shiftr size 16); byte_of_Z (Z.shiftr size 24) ]
      ++ take (Z.to_nat size) psz.
Proof.
  intros Hs Hpsz Hnul Hint size.
  apply strlen_all in Hnul.
  rewrite (SaveStringToFile_size B wxString mb_str f str psz Hpsz)
    by (rewrite Hnul; exact Hint).
  cbv zeta. rewrite Hnul. fold size.
  rewrite (SaveIntToFile_char B f size Hs), <- app_assoc. reflexivity.
Qed.

(** On a build whose [wxChar] is one octet, signed or not, a string whose
    encoding has no zero octet and more than 32767 octets is written, after
    what the stream held, as the octets FF 7F 00 00 (32767, least
    significant octet first) followed by the first 32767 octets of the
    encoding and nothing more. *)
Theorem SaveStringToFile_cut_octets (B : Build) (wxString : Type)
    (mb_str : wxString -> option (list byte))
    (f : wxOutputStream) (str : wxString) (psz : list byte) :
  wxChar_size B = 1%positive ->
  mb_str str = Some psz ->
  Forall (fun b => is_nul b = false) psz ->
  32767 < Z.of_nat (length psz) <= Int.max_int ->
  SaveStringToFile B wxString mb_str f str
  = f ++ [Byte.xff; Byte.x7f; Byte.x00; Byte.x00] ++ take (Z.to_nat 32767) psz
  /\ Z.of_nat (length (take (Z.to_nat 32767) psz)) = 32767.
Proof.
  intros Hs Hpsz Hnul [ Hlong Hint ]. split.
  - rewrite (SaveStringToFile_octets B wxString mb_str f str psz Hs Hpsz Hnul Hint).
    cbv zeta. rewrite Z.min_r by lia. reflexivity.
  - rewrite length_take. lia.
Qed.

Lemma SaveStringToFile_cut_octets_witness :
  save_octets ansi_x86 [Byte.x2a] name_40000
  = [Byte.x2a] ++ [Byte.xff; Byte.x7f; Byte.x00; Byte.x00]
      ++ take (Z.to_nat 32767) name_40000
  /\ Z.of_nat (length (take (Z.to_nat 32767) name_40000)) = 32767.
Proof.
  apply (SaveStringToFile_cut_octets ansi_x86 octet_string octet_mb_str
           [Byte.x2a] name_40000 name_40000).
  - reflexivity.
  - reflexivity.
  - apply List.Forall_forall. intros b Hb. apply repeat_spec in Hb.
    rewrite Hb. reflexivity.
  - unfold name_40000. rewrite repeat_length, Z2Nat.id by lia.
    split; [ reflexivity | discriminate ].
Defined.

(** On a build whose [wxChar] is one octet, signed or not, a string whose
    encoding has no zero octet and at most 32767 octets is written, after
    what the stream held, as its length in four octets, least significant
    first (the two high ones are zero), followed by all octets of the
    encoding; the empty string is written as 00 00 00 00 and nothing else. *)
Theorem SaveStringToFile_whole_octets (B : Build) (wxString : Type)
    (mb_str : wxString -> option (list byte))
    (f : wxOutputStream) (str : wxString) (psz : list byte) :
  wxChar_size B = 1%positive ->
  mb_str str = Some psz ->
  Forall (fun b => is_nul b = false) psz ->
  Z.of_nat (length psz) <= 32767 ->
  SaveStringToFile B wxString mb_str f str
  = f ++ [ byte_of_Z (Z.of_nat (length psz));
           byte_of_Z (Z.shiftr (Z.of_nat (length psz)) 8);
           Byte.x00; Byte.x00 ] ++ psz
  /\ Z_of_byte (byte_of_Z (Z.of_nat (length psz)))
     + 256 * Z_of_byte (byte_of_Z (Z.shiftr (Z.of_nat (length psz)) 8))
     = Z.of_nat (length psz).
Proof.
  intros Hs Hpsz Hnul Hshort.
  set (n := Z.of_nat (length psz)) in *.
  assert (Hn : 0 <= n) by (unfold n; lia).
  split.
  - assert (Hint : n <= Int.max_int) by (unfold Int.max_int; lia).
    rewrite (SaveStringToFile_octets B wxString mb_str f str psz Hs Hpsz Hnul Hint).
    cbv zeta. fold n. rewrite Z.min_l by lia.
    replace (take (Z.to_nat n) psz) with psz
      by (unfold n; rewrite Nat2Z.id, firstn_all; reflexivity).
    assert (H16 : Z.shiftr n 16 = 0).
    { rewrite Z.shiftr_div_pow2 by lia. apply Z.div_small.
      change (2 ^ 16) with 65536. lia. }
    assert (H24 : Z.shiftr n 24 = 0).
    { rewrite Z.shiftr_div_pow2 by lia. apply Z.div_small.
      change (2 ^ 24) with 16777216. lia. }
    rewrite H16, H24. reflexivity.
  - rewrite !Z_of_byte_of_Z, Z.shiftr_div_pow2 by lia.
    change (2 ^ 8) with 256.
    rewrite (Z.mod_small (n / 256) 256)
      by (split; [ apply Z.div_pos; lia | apply Z.div_lt_upper_bound; lia ]).
    pose proof (Z.div_mod n 256 ltac:(lia)). lia.
Qed.

Lemma SaveStringToFile_whole_octets_witness :
  save_octets ansi_x86 [Byte.x2a] name_300
  = [Byte.x2a] ++ [Byte.x2c; Byte.x01; Byte.x00; Byte.x00] ++ name_300
  /\ Z_of_byte Byte.x2c + 256 * Z_of_byte Byte.x01 = Z.of_nat (length name_300).
Proof.
  apply (SaveStringToFile_whole_octets ansi_x86 octet_string octet_mb_str
           [Byte.x2a] name_300 name_300).
  - reflexivity.
  - reflexivity.
  - apply List.Forall_forall. intros b Hb. apply repeat_spec in Hb.
    rewrite Hb. reflexivity.
  - vm_compute. discriminate.
Defined.
